(** * Stalker task graph: a shallow embedding of [stalker/models/task.py]

    The Python objects of the task module are kept in an arena indexed by
    identity; every validator, getter and setter of [Task] and [Booking]
    becomes a function over that arena.  Recursion that Python leaves
    unbounded carries a fuel argument: [None] means that the recursion did
    not come back within the fuel. *)

From Stdlib Require Import ZArith Lia SpecFloat Ascii String.
From stdpp Require Import base option list numbers strings gmap relations.

Local Open Scope Z_scope.

(** ** Python values that reach the validators *)

(** Time is counted in microseconds: a [datetime] is the number of
    microseconds since [datetime.min], a [timedelta] a signed number of
    microseconds.  A float is an IEEE-754 double as [spec_float]. *)
Inductive value : Type :=
| VNone
| VBool (b : bool)
| VInt (z : Z)
| VFloat (f : spec_float)
| VStr (s : string)
| VTimedelta (us : Z)
| VDatetime (us : Z)
| VTask (id : nat)
| VUser (id : nat)
| VProject (id : nat)
| VObject (cls : string).

Inductive exn : Type :=
| TypeError
| ValueError
| OverflowError
| CircularDependencyError.

Global Instance exn_eq_dec : EqDecision exn.
Proof. solve_decision. Defined.

(** What a call hands back to its caller: a value or a raised exception. *)
Inductive result (A : Type) : Type :=
| Ok (a : A)
| Raise (e : exn).
Arguments Ok {A} a.
Arguments Raise {A} e.

(** [datetime.datetime.min] and [datetime.datetime.max]
    (0001-01-01 00:00:00 and 9999-12-31 23:59:59.999999). *)
Definition datetime_min : Z := 0.
Definition datetime_max : Z := 3652059 * 86400 * 1000000 - 1.

(** ** The [Task] columns and relationships *)

Record Task : Type := mkTask {
  parent : option nat;
  children : list nat;
  depends : list nat;
  resources : list nat;
  _project : option nat;
  is_milestone : bool;
  is_complete : bool;
  priority : Z;
  _effort : option Z;
  _start : Z;
  _end : Z;
  _duration : Z
}.

(** The arena of tasks.  An identity that the arena does not hold reads as
    a task with every collection empty. *)
Abbreviation store := (gmap nat Task).

Definition blank_task : Task :=
  mkTask None [] [] [] None false false 0 None 0 0 0.

Definition task_of (st : store) (t : nat) : Task := default blank_task (st !! t).

Definition set_parent_field (p : option nat) (T : Task) : Task :=
  mkTask p (children T) (depends T) (resources T) (_project T) (is_milestone T)
         (is_complete T) (priority T) (_effort T) (_start T) (_end T) (_duration T).
Definition set_children (l : list nat) (T : Task) : Task :=
  mkTask (parent T) l (depends T) (resources T) (_project T) (is_milestone T)
         (is_complete T) (priority T) (_effort T) (_start T) (_end T) (_duration T).
Definition set_depends (l : list nat) (T : Task) : Task :=
  mkTask (parent T) (children T) l (resources T) (_project T) (is_milestone T)
         (is_complete T) (priority T) (_effort T) (_start T) (_end T) (_duration T).
Definition set_resources (l : list nat) (T : Task) : Task :=
  mkTask (parent T) (children T) (depends T) l (_project T) (is_milestone T)
         (is_complete T) (priority T) (_effort T) (_start T) (_end T) (_duration T).
Definition set_project (p : option nat) (T : Task) : Task :=
  mkTask (parent T) (children T) (depends T) (resources T) p (is_milestone T)
         (is_complete T) (priority T) (_effort T) (_start T) (_end T) (_duration T).
Definition set_is_milestone (b : bool) (T : Task) : Task :=
  mkTask (parent T) (children T) (depends T) (resources T) (_project T) b
         (is_complete T) (priority T) (_effort T) (_start T) (_end T) (_duration T).
Definition set_is_complete (b : bool) (T : Task) : Task :=
  mkTask (parent T) (children T) (depends T) (resources T) (_project T) (is_milestone T)
         b (priority T) (_effort T) (_start T) (_end T) (_duration T).
Definition set_priority (p : Z) (T : Task) : Task :=
  mkTask (parent T) (children T) (depends T) (resources T) (_project T) (is_milestone T)
         (is_complete T) p (_effort T) (_start T) (_end T) (_duration T).
Definition set_effort (e : option Z) (T : Task) : Task :=
  mkTask (parent T) (children T) (depends T) (resources T) (_project T) (is_milestone T)
         (is_complete T) (priority T) e (_start T) (_end T) (_duration T).
Definition set_start (s : Z) (T : Task) : Task :=
  mkTask (parent T) (children T) (depends T) (resources T) (_project T) (is_milestone T)
         (is_complete T) (priority T) (_effort T) s (_end T) (_duration T).
Definition set_end (e : Z) (T : Task) : Task :=
  mkTask (parent T) (children T) (depends T) (resources T) (_project T) (is_milestone T)
         (is_complete T) (priority T) (_effort T) (_start T) e (_duration T).
Definition set_dates (s e d : Z) (T : Task) : Task :=
  mkTask (parent T) (children T) (depends T) (resources T) (_project T) (is_milestone T)
         (is_complete T) (priority T) (_effort T) s e d.

(** Attribute assignment on the object [t] of the arena. *)
Definition update (t : nat) (f : Task -> Task) (st : store) : store :=
  <[t := f (task_of st t)]> st.

(** ** [_check_circular_dependency] *)

Inductive attr_name : Type := Children | Depends.

(** [getattr(task, attr_name)] for the two names the module passes. *)
Definition getattr (st : store) (task : nat) (attr : attr_name) : list nat :=
  match attr with
  | Children => children (task_of st task)
  | Depends => depends (task_of st task)
  end.

(** The body of the [for] loop, with the recursive call abstracted as
    [recur]: the first exception ends the loop. *)
Fixpoint check_loop (recur : nat -> option (result unit)) (check_for_task : nat)
    (l : list nat) : option (result unit) :=
  match l with
  | [] => Some (Ok tt)
  | dependent_task :: rest =>
      if decide (dependent_task = check_for_task)
      then Some (Raise CircularDependencyError)
      else match recur dependent_task with
           | Some (Ok _) => check_loop recur check_for_task rest
           | other => other
           end
  end.

Fixpoint _check_circular_dependency (fuel : nat) (st : store)
    (task check_for_task : nat) (attr : attr_name) : option (result unit) :=
  match fuel with
  | O => None
  | S fuel' =>
      check_loop
        (fun dependent_task =>
           _check_circular_dependency fuel' st dependent_task check_for_task attr)
        check_for_task (getattr st task attr)
  end.

(** ** Truth value and [int()] of a Python value *)

(** [bool(x)]: what [if x:] tests.  Instances of the mapped classes define
    neither [__len__] nor [__nonzero__] and are true. *)
Definition bool_of (v : value) : bool :=
  match v with
  | VNone => false
  | VBool b => b
  | VInt z => negb (z =? 0)
  | VFloat (S754_zero _) => false
  | VFloat _ => true
  | VStr s => negb (String.eqb s "")
  | VTimedelta us => negb (us =? 0)
  | _ => true
  end.

Definition is_space (c : ascii) : bool :=
  let n := nat_of_ascii c in
  ((9 <=? n) && (n <=? 13))%nat || (n =? 32)%nat.

Definition is_digit (c : ascii) : bool :=
  let n := nat_of_ascii c in ((48 <=? n) && (n <=? 57))%nat.

Definition digits_value (l : list ascii) : Z :=
  fold_left (fun acc c => 10 * acc + (Z.of_nat (nat_of_ascii c) - 48)) l 0.

Fixpoint lstrip (l : list ascii) : list ascii :=
  match l with
  | c :: rest => if is_space c then lstrip rest else l
  | [] => []
  end.

Definition strip (l : list ascii) : list ascii := rev (lstrip (rev (lstrip l))).

Definition all_digits (l : list ascii) : bool :=
  match l with [] => false | _ => forallb is_digit l end.

(** [int(s)] in base 10: surrounding blanks, one optional sign, digits. *)
Definition int_of_string (s : string) : result Z :=
  match strip (list_ascii_of_string s) with
  | "-"%char :: ds => if all_digits ds then Ok (- digits_value ds) else Raise ValueError
  | "+"%char :: ds => if all_digits ds then Ok (digits_value ds) else Raise ValueError
  | ds => if all_digits ds then Ok (digits_value ds) else Raise ValueError
  end.

(** [int(f)]: truncation towards zero; infinities and NaN have no integer. *)
Definition int_of_float (f : spec_float) : result Z :=
  match f with
  | S754_zero _ => Ok 0
  | S754_infinity _ => Raise OverflowError
  | S754_nan => Raise ValueError
  | S754_finite s m e =>
      let magnitude := Z.shiftl (Z.pos m) e in
      Ok (if s then - magnitude else magnitude)
  end.

(** [sys.maxint], the largest [int] of the interpreter (a 64-bit build):
    an integer from [- maxint - 1] to [maxint] is an [int], any other a
    [long]. *)
Definition maxint : Z := 2 ^ 63 - 1.

(** [isinstance(z, int)] for an integer that [int()] has produced. *)
Definition is_int (z : Z) : bool := (- maxint - 1 <=? z) && (z <=? maxint).

(** The builtin [int(x)].  Its result is an [int] when it fits the machine
    word and a [long] otherwise; [VInt] holds either. *)
Definition int_ (v : value) : result Z :=
  match v with
  | VInt z => Ok z
  | VBool b => Ok (Z.b2z b)
  | VFloat f => int_of_float f
  | VStr s => int_of_string s
  | _ => Raise TypeError
  end.

(** ** [Task._validate_priority] *)

(** [TASK_PRIORITY] is [stalker.conf.defaults.TASK_PRIORITY].  After a
    conversion that succeeded, [isinstance(priority, int)] fails on a
    [long]; after one that failed, on whatever was written. *)
Definition _validate_priority (TASK_PRIORITY : Z) (priority : value) : result Z :=
  let converted : result value :=
    match int_ priority with
    | Ok z => Ok (VInt z)
    | Raise ValueError | Raise TypeError => Ok priority
    | Raise e => Raise e
    end in
  match converted with
  | Raise e => Raise e
  | Ok priority =>
      let priority :=
        match priority with
        | VInt z => if is_int z then z else TASK_PRIORITY
        | VBool b => Z.b2z b
        | _ => TASK_PRIORITY
        end in
      Ok (if priority <? 0 then 0
          else if 1000 <? priority then 1000
          else priority)
  end.

(** ** Validators and collection events of the structural attributes

    A validator runs before the attribute event it guards takes effect:
    when it raises, the assignment or the append does not happen. *)

Definition _validate_depends (fuel : nat) (st : store) (self : nat)
    (depends : value) : option (result nat) :=
  match depends with
  | VTask d =>
      match _check_circular_dependency fuel st d self Depends with
      | None => None
      | Some (Raise e) => Some (Raise e)
      | Some (Ok _) => Some (Ok d)
      end
  | _ => Some (Raise TypeError)
  end.

(** [self.depends.append(v)]. *)
Definition depends_append (fuel : nat) (st : store) (self : nat) (v : value)
    : option (store * result unit) :=
  match _validate_depends fuel st self v with
  | None => None
  | Some (Raise e) => Some (st, Raise e)
  | Some (Ok d) => Some (update self (fun T => set_depends (depends T ++ [d]) T) st, Ok tt)
  end.

(** [task.dependent_of], the backref that the [depends] relationship
    declares: the tasks whose [depends] holds [task].  The ORM adds [self]
    to [d.dependent_of] on every [self.depends.append(d)] that is let
    through; the list is read off the arena here, in the order of the
    identities, so it follows every such append. *)
Definition dependent_of (st : store) (task : nat) : list nat :=
  filter (fun t => task ∈ depends (task_of st t)) (map_to_list st).*1.

Definition _validate_parent (fuel : nat) (st : store) (self : nat)
    (parent : value) : option (result (option nat)) :=
  match parent with
  | VNone => Some (Ok None)
  | VTask p =>
      match _check_circular_dependency fuel st self p Children with
      | None => None
      | Some (Raise e) => Some (Raise e)
      | Some (Ok _) => Some (Ok (Some p))
      end
  | _ => Some (Raise TypeError)
  end.

(** [_validate_children] empties the resources of the task that receives a
    child and lets the child through. *)
Definition _validate_children (st : store) (self child : nat) : store :=
  update self (set_resources []) st.

(** The relationship leaves the former parent's [children]. *)
Definition detach (child : nat) (st : store) : store :=
  match parent (task_of st child) with
  | Some old =>
      update old (fun T => set_children (filter (fun c => c ≠ child) (children T)) T) st
  | None => st
  end.

(** [self.parent = v]: [_validate_parent], the assignment, and the
    [children] side of the relationship, whose append event runs
    [_validate_children] on the new parent. *)
Definition parent_set (fuel : nat) (st : store) (self : nat) (v : value)
    : option (store * result unit) :=
  match _validate_parent fuel st self v with
  | None => None
  | Some (Raise e) => Some (st, Raise e)
  | Some (Ok None) => Some (update self (set_parent_field None) (detach self st), Ok tt)
  | Some (Ok (Some p)) =>
      let st1 := update self (set_parent_field (Some p)) (detach self st) in
      let st2 := _validate_children st1 p self in
      Some (update p (fun T => set_children (children T ++ [self]) T) st2, Ok tt)
  end.

Definition _validate_resources (resource : value) : result nat :=
  match resource with
  | VUser u => Ok u
  | _ => Raise TypeError
  end.

(** [self.resources.append(v)]. *)
Definition resources_append (st : store) (self : nat) (v : value) : store * result unit :=
  match _validate_resources v with
  | Raise e => (st, Raise e)
  | Ok u => (update self (fun T => set_resources (resources T ++ [u]) T) st, Ok tt)
  end.

Fixpoint remove_first (u : nat) (l : list nat) : option (list nat) :=
  match l with
  | [] => None
  | x :: rest => if decide (x = u) then Some rest
                 else option_map (cons x) (remove_first u rest)
  end.

(** [self.resources.remove(u)]: no validator guards a removal. *)
Definition resources_remove (st : store) (self : nat) (u : nat) : store * result unit :=
  match remove_first u (resources (task_of st self)) with
  | None => (st, Raise ValueError)
  | Some l => (update self (set_resources l) st, Ok tt)
  end.

(** [self.is_milestone = v], through [_validate_is_milestone]. *)
Definition is_milestone_set (st : store) (self : nat) (v : value) : store :=
  let st1 := if bool_of v then update self (set_resources []) st else st in
  update self (set_is_milestone (bool_of v)) st1.

(** [self.is_complete = v], through [_validate_is_complete]. *)
Definition is_complete_set (st : store) (self : nat) (v : value) : store :=
  update self (set_is_complete (bool_of v)) st.

(** [self.priority = v]. *)
Definition priority_set (TASK_PRIORITY : Z) (st : store) (self : nat) (v : value)
    : store * result unit :=
  match _validate_priority TASK_PRIORITY v with
  | Raise e => (st, Raise e)
  | Ok p => (update self (set_priority p) st, Ok tt)
  end.

Inductive warning : Type :=
| RuntimeWarning (task : nat) (parent_project : option nat)
| OverBookedWarning (resource : nat) (self_start self_end booking_start booking_end : Z).

(** [Task._validates_project]: the value stored in [_project], and the
    warnings issued.  Projects are compared by identity. *)
Definition _validates_project (st : store) (self : nat) (project : value)
    : result (option nat) * list warning :=
  let parent_of_self := parent (task_of st self) in
  let project1 : result value :=
    match project with
    | VNone =>
        match parent_of_self with
        | Some p =>
            Ok (match _project (task_of st p) with Some q => VProject q | None => VNone end)
        | None => Raise TypeError
        end
    | _ => Ok project
    end in
  match project1 with
  | Raise e => (Raise e, [])
  | Ok (VProject q) =>
      match parent_of_self with
      | Some p =>
          let parent_project := _project (task_of st p) in
          if decide (parent_project = Some q) then (Ok (Some q), [])
          else (Ok parent_project, [RuntimeWarning self parent_project])
      | None => (Ok (Some q), [])
      end
  | Ok _ => (Raise TypeError, [])
  end.

Definition is_container (st : store) (self : nat) : bool :=
  negb (length (children (task_of st self)) =? 0)%nat.

Definition is_leaf (st : store) (self : nat) : bool :=
  negb (is_container st self).

(** [len(self.resources)], counted as one when there is none. *)
Definition num_of_resources (st : store) (self : nat) : Z :=
  let n := Z.of_nat (length (resources (task_of st self))) in
  if n =? 0 then 1 else n.

(** ** The schedule attributes *)

Section Schedule.

(** [ScheduleMixin._validate_dates(start, end, duration)] is not part of
    this module: it reconciles the three values and stores the triple it
    settles on in [_start], [_end] and [_duration]. *)
Variable _validate_dates : value -> value -> value -> Z * Z * Z.

Definition validate_dates_on (st : store) (self : nat) (start end_ duration : value)
    : store :=
  let '(s, e, d) := _validate_dates start end_ duration in
  update self (set_dates s e d) st.

(** The loop of [_start_getter]; [recur] reads [child.start].  The source
    reads [child.start] once to compare and once more to assign. *)
Fixpoint start_loop (recur : store -> nat -> option (store * Z)) (self : nat)
    (st : store) (l : list nat) : option store :=
  match l with
  | [] => Some st
  | child :: rest =>
      match recur st child with
      | None => None
      | Some (st1, child_start) =>
          if child_start <? _start (task_of st1 self) then
            match recur st1 child with
            | None => None
            | Some (st2, child_start') =>
                start_loop recur self (update self (set_start child_start') st2) rest
            end
          else start_loop recur self st1 rest
      end
  end.

Fixpoint _start_getter (fuel : nat) (st : store) (self : nat) : option (store * Z) :=
  match fuel with
  | O => None
  | S fuel' =>
      if is_container st self then
        let st0 := update self (set_start datetime_max) st in
        match start_loop (_start_getter fuel') self st0 (children (task_of st0 self)) with
        | None => None
        | Some st' => Some (st', _start (task_of st' self))
        end
      else Some (st, _start (task_of st self))
  end.

Fixpoint end_loop (recur : store -> nat -> option (store * Z)) (self : nat)
    (st : store) (l : list nat) : option store :=
  match l with
  | [] => Some st
  | child :: rest =>
      match recur st child with
      | None => None
      | Some (st1, child_end) =>
          if _end (task_of st1 self) <? child_end then
            match recur st1 child with
            | None => None
            | Some (st2, child_end') =>
                end_loop recur self (update self (set_end child_end') st2) rest
            end
          else end_loop recur self st1 rest
      end
  end.

Fixpoint _end_getter (fuel : nat) (st : store) (self : nat) : option (store * Z) :=
  match fuel with
  | O => None
  | S fuel' =>
      if is_container st self then
        let st0 := update self (set_end datetime_min) st in
        match end_loop (_end_getter fuel') self st0 (children (task_of st0 self)) with
        | None => None
        | Some st' => Some (st', _end (task_of st' self))
        end
      else Some (st, _end (task_of st self))
  end.

Definition _duration_getter (st : store) (self : nat) : Z := _duration (task_of st self).

Definition _start_setter (fuel : nat) (st : store) (self : nat) (start_in : value)
    : option store :=
  if is_leaf st self then
    match _end_getter fuel st self with
    | None => None
    | Some (st1, e) =>
        Some (validate_dates_on st1 self start_in (VDatetime e)
                (VTimedelta (_duration_getter st1 self)))
    end
  else Some st.

Definition _end_setter (fuel : nat) (st : store) (self : nat) (end_in : value)
    : option store :=
  if is_leaf st self then
    match _start_getter fuel st self with
    | None => None
    | Some (st1, s) =>
        Some (validate_dates_on st1 self (VDatetime s) end_in
                (VTimedelta (_duration_getter st1 self)))
    end
  else Some st.

(** [timedelta / int] and [timedelta * int].  The quotient is the floor,
    as [timedelta.__div__] computes it. *)
Definition timedelta_div (d n : Z) : Z := d / n.
Definition timedelta_mul (d n : Z) : Z := d * n.

Definition _validate_effort (st : store) (self : nat) (effort : value) : Z :=
  match effort with
  | VTimedelta e => e
  | _ => timedelta_mul (_duration_getter st self) (num_of_resources st self)
  end.

Definition _effort_getter (st : store) (self : nat) : option Z := _effort (task_of st self).

(** [_effort_setter] and [_duration_setter] call each other through the
    [duration] and [effort] properties. *)
Fixpoint _effort_setter (fuel : nat) (st : store) (self : nat) (effort_in : value)
    : option store :=
  match fuel with
  | O => None
  | S fuel' =>
      let effort := _validate_effort st self effort_in in
      let st1 := update self (set_effort (Some effort)) st in
      let n := num_of_resources st1 self in
      _duration_setter fuel' st1 self (VTimedelta (timedelta_div effort n))
  end
with _duration_setter (fuel : nat) (st : store) (self : nat) (duration : value)
    : option store :=
  match fuel with
  | O => None
  | S fuel' =>
      match _start_getter fuel' st self with
      | None => None
      | Some (st1, s) =>
          let reconciled : option store :=
            match duration with
            | VTimedelta _ =>
                Some (validate_dates_on st1 self (VDatetime s) VNone duration)
            | _ =>
                match _end_getter fuel' st1 self with
                | None => None
                | Some (st2, e) =>
                    Some (validate_dates_on st2 self (VDatetime s) (VDatetime e) duration)
                end
            end in
          match reconciled with
          | None => None
          | Some st3 =>
              let n := num_of_resources st3 self in
              let new_effort_value := timedelta_mul (_duration_getter st3 self) n in
              if decide (_effort_getter st3 self = Some new_effort_value) then Some st3
              else _effort_setter fuel' st3 self (VTimedelta new_effort_value)
          end
      end
  end.

(** ** [Task.__init__] *)

(** Statements run in sequence over the arena; an exception ends the
    sequence and leaves the arena as it is at that point. *)
Definition M (A : Type) : Type := store -> option (store * result A).

Definition ret {A : Type} (a : A) : M A := fun st => Some (st, Ok a).

Definition bind {A B : Type} (m : M A) (k : A -> M B) : M B :=
  fun st =>
    match m st with
    | None => None
    | Some (st1, Raise e) => Some (st1, Raise e)
    | Some (st1, Ok a) => k a st1
    end.

Definition modify (f : store -> store) : M unit := fun st => Some (f st, Ok tt).
Definition total {A : Type} (f : store -> store * result A) : M A := fun st => Some (f st).
Definition no_raise (f : store -> option store) : M unit :=
  fun st => option_map (fun st1 => (st1, Ok tt)) (f st).

Fixpoint for_each {A : Type} (body : A -> M unit) (l : list A) : M unit :=
  match l with
  | [] => ret tt
  | x :: rest => bind (body x) (fun _ => for_each body rest)
  end.

Record task_args : Type := mkArgs {
  arg_project : value;
  arg_parent : value;
  arg_depends : option (list value);
  arg_start : value;
  arg_end : value;
  arg_duration : value;
  arg_effort : value;
  arg_resources : option (list value);
  arg_is_milestone : value;
  arg_priority : value
}.

(** From [self.is_milestone = is_milestone] to the end of [__init__]. *)
Definition Task_init_attributes (fuel : nat) (TASK_PRIORITY : Z) (self : nat)
    (a : task_args) : M unit :=
  bind (modify (fun st => is_milestone_set st self (arg_is_milestone a))) (fun _ =>
  bind (modify (fun st => is_complete_set st self (VBool false))) (fun _ =>
  bind (for_each (fun d st => depends_append fuel st self d)
                 (default [] (arg_depends a))) (fun _ =>
  bind (fun st =>
          let resources :=
            if is_milestone (task_of st self) then None else arg_resources a in
          for_each (fun r => total (fun st1 => resources_append st1 self r))
                   (default [] resources) st) (fun _ =>
  bind (modify (update self (set_effort None))) (fun _ =>
  bind (no_raise (fun st => _effort_setter fuel st self (arg_effort a))) (fun _ =>
  total (fun st => priority_set TASK_PRIORITY st self (arg_priority a)))))))).

(** [Task(project=..., parent=..., ...)], building the object [self]. *)
Definition Task_init (fuel : nat) (TASK_PRIORITY : Z) (st : store) (self : nat)
    (a : task_args) : option (store * list warning * result unit) :=
  let st0 := validate_dates_on (<[self := blank_task]> st) self
               (arg_start a) (arg_end a) (arg_duration a) in
  match parent_set fuel st0 self (arg_parent a) with
  | None => None
  | Some (st1, Raise e) => Some (st1, [], Raise e)
  | Some (st1, Ok _) =>
      match _validates_project st1 self (arg_project a) with
      | (Raise e, w) => Some (st1, w, Raise e)
      | (Ok p, w) =>
          match Task_init_attributes fuel TASK_PRIORITY self a
                  (update self (set_project p) st1) with
          | None => None
          | Some (st2, r) => Some (st2, w, r)
          end
      end
  end.

(** ** [Booking] *)

(** A booking that has its task; [resource] is [None] until the
    constructor has assigned it. *)
Record Booking : Type := mkBooking {
  booking_task : nat;
  booking_resource : option nat;
  booking_start : Z;
  booking_end : Z;
  booking_duration : Z
}.

(** [User.bookings] of a user in the map of the users, [Task.bookings] of
    a task in the map of the tasks. *)
Definition bookings_of (bookings : gmap nat (list Booking)) (owner : nat) : list Booking :=
  default [] (bookings !! owner).

Definition _validate_task (task : value) : result nat :=
  match task with
  | VTask t => Ok t
  | _ => Raise TypeError
  end.

(** The test of the overbooking loop, [self] being the new booking. *)
Definition overbooked (booking_start booking_end self_start self_end : Z) : bool :=
  (booking_start =? self_start) ||
  (booking_end =? self_end) ||
  ((self_end >? booking_start) && (self_end <? booking_end)) ||
  ((self_start >? booking_start) && (self_start <? booking_end)).

Fixpoint overbooking_loop (resource : nat) (self_start self_end : Z)
    (l : list Booking) : list warning :=
  match l with
  | [] => []
  | booking :: rest =>
      if overbooked (booking_start booking) (booking_end booking) self_start self_end
      then OverBookedWarning resource self_start self_end
             (booking_start booking) (booking_end booking)
           :: overbooking_loop resource self_start self_end rest
      else overbooking_loop resource self_start self_end rest
  end.

Definition _validate_resource (users : gmap nat (list Booking))
    (self_start self_end : Z) (resource : value) : result nat * list warning :=
  match resource with
  | VNone => (Raise TypeError, [])
  | VUser u =>
      (Ok u, overbooking_loop u self_start self_end (bookings_of users u))
  | _ => (Raise TypeError, [])
  end.

(** [Booking(task, resource, start, end, duration)]: the dates are
    reconciled first, then [task] and [resource] are assigned in this
    order.  Both relationships are declared with [back_populates]:
    [self.task = task] adds the new booking to [task.bookings], where
    [_validate_bookings] lets every booking through, and
    [self.resource = resource] adds it to [resource.bookings].  The lists
    hold the object itself, so the booking seen in [task.bookings] has its
    resource as soon as that is assigned.  [tasks] holds [Task.bookings],
    [users] holds [User.bookings]. *)
Definition Booking_init (tasks users : gmap nat (list Booking))
    (task resource start end_ duration : value)
    : gmap nat (list Booking) * gmap nat (list Booking) * list warning * result Booking :=
  let '(s, e, d) := _validate_dates start end_ duration in
  match _validate_task task with
  | Raise ex => (tasks, users, [], Raise ex)
  | Ok t =>
      let tasks1 := <[t := bookings_of tasks t ++ [mkBooking t None s e d]]> tasks in
      match _validate_resource users s e resource with
      | (Raise ex, w) => (tasks1, users, w, Raise ex)
      | (Ok u, w) =>
          let b := mkBooking t (Some u) s e d in
          (<[t := bookings_of tasks t ++ [b]]> tasks,
           <[u := bookings_of users u ++ [b]]> users, w, Ok b)
      end
  end.

End Schedule.

(** ** Vocabulary of the properties *)

(** One edge of the traversed relation, and the tasks a task reaches by
    one edge or more. *)
Definition edge (st : store) (attr : attr_name) (x y : nat) : Prop :=
  y ∈ getattr st x attr.

Definition reaches (st : store) (attr : attr_name) : nat -> nat -> Prop :=
  tc (edge st attr).

(** Every chain of edges that starts at [t] has at most [n] tasks. *)
Fixpoint depth_below (st : store) (attr : attr_name) (n : nat) (t : nat) : Prop :=
  match n with
  | O => False
  | S n' => Forall (depth_below st attr n') (getattr st t attr)
  end.

Definition acyclic (st : store) (attr : attr_name) : Prop :=
  forall t, ~ reaches st attr t t.

(** ** Arenas used as examples *)

(** One task and nothing else. *)
Definition lone_task : store := {[ 0%nat := blank_task ]}.

(** Tasks A = 1, B = 2, C = 3 with A.depends = [B] and B.depends = [C]. *)
Definition chain : store :=
  <[1%nat := set_depends [2%nat] blank_task]>
    (<[2%nat := set_depends [3%nat] blank_task]> {[ 3%nat := blank_task ]}).

(** Task 0 already depends on itself; task 1 is another task. *)
Definition looped : store :=
  <[0%nat := set_depends [0%nat] blank_task]> {[ 1%nat := blank_task ]}.

(** Task 1 is the parent of tasks 2 and 3, which run from 5 to 20 and
    from 9 to 30; task 1 stores stale dates. *)
Definition family : store :=
  <[1%nat := set_dates 100 200 100 (set_children [2%nat; 3%nat] blank_task)]>
    (<[2%nat := set_dates 5 20 15 (set_parent_field (Some 1%nat) blank_task)]>
       {[ 3%nat := set_dates 9 30 21 (set_parent_field (Some 1%nat) blank_task) ]}).

(** Two tasks that are not related; task 1 has one resource. *)
Definition strangers : store :=
  <[1%nat := set_resources [7%nat] blank_task]> {[ 2%nat := blank_task ]}.

(** Modelled from the spec: [ScheduleMixin._validate_dates], the
    reconciliation primitive, whose source is not part of this module.
    Given two of start, end and duration it computes the third; what it
    does with fewer than two is not stated, and a missing start or
    duration counts as zero here.  It serves to show that what is assumed
    of the primitive can be met. *)
Definition reconcile (start end_ duration : value) : Z * Z * Z :=
  match start, end_, duration with
  | VDatetime s, VDatetime e, _ => (s, e, e - s)
  | VDatetime s, _, VTimedelta d => (s, s + d, d)
  | _, VDatetime e, VTimedelta d => (e - d, e, d)
  | VDatetime s, _, _ => (s, s, 0)
  | _, VDatetime e, _ => (e, e, 0)
  | _, _, VTimedelta d => (0, d, d)
  | _, _, _ => (0, 0, 0)
  end.

(** ** The traversal shared by [_start_getter] and [_end_getter] *)

Section Traversal.

(** [better v current]: the child's value [v] replaces [current];
    [rd] and [wr] read and write the attribute on the task. *)
Variables (better : Z -> Z -> bool) (rd : Task -> Z) (wr : Z -> Task -> Task) (init : Z).

Fixpoint date_loop (recur : store -> nat -> option (store * Z)) (self : nat)
    (st : store) (l : list nat) : option store :=
  match l with
  | [] => Some st
  | child :: rest =>
      match recur st child with
      | None => None
      | Some (st1, v) =>
          if better v (rd (task_of st1 self)) then
            match recur st1 child with
            | None => None
            | Some (st2, v') => date_loop recur self (update self (wr v') st2) rest
            end
          else date_loop recur self st1 rest
      end
  end.

Fixpoint date_getter (fuel : nat) (st : store) (self : nat) : option (store * Z) :=
  match fuel with
  | O => None
  | S fuel' =>
      if is_container st self then
        let st0 := update self (wr init) st in
        match date_loop (date_getter fuel') self st0 (children (task_of st0 self)) with
        | None => None
        | Some st' => Some (st', rd (task_of st' self))
        end
      else Some (st, rd (task_of st self))
  end.

Definition pick (current v : Z) : Z := if better v current then v else current.

(** The value the getter computes, without its writes. *)
Fixpoint date_value (fuel : nat) (st : store) (t : nat) : option Z :=
  match fuel with
  | O => None
  | S fuel' =>
      if is_container st t then
        vs ← mapM (date_value fuel' st) (children (task_of st t));
        Some (foldl pick init vs)
      else Some (rd (task_of st t))
  end.

End Traversal.

(** A task with the dates that a container only derives blanked out. *)
Definition erase (T : Task) : Task :=
  match children T with
  | [] => T
  | _ => set_start 0 (set_end 0 T)
  end.

(** Two arenas that differ at most in the stored dates of containers. *)
Definition same_inputs (st st' : store) : Prop :=
  forall x, erase (task_of st x) = erase (task_of st' x).

(** What one read [recur st c] made with fuel [n] guarantees: it writes
    only stored dates of containers, and of no task that [c] does not
    reach; the tree below [c] is at most [n] deep; and the value is the
    one [date_value] gives. *)
Definition reads_well (better : Z -> Z -> bool) (rd : Task -> Z) (init : Z)
    (recur : store -> nat -> option (store * Z)) (n : nat) : Prop :=
  forall st c st' v, recur st c = Some (st', v) ->
    same_inputs st' st /\
    depth_below st Children n c /\
    (forall x, ~ rtc (edge st Children) c x -> task_of st' x = task_of st x) /\
    date_value better rd init n st c = Some v.

(** Every stored date is a [datetime]. *)
Definition dates_valid (st : store) : Prop :=
  forall x, datetime_min <= _start (task_of st x) <= datetime_max /\
            datetime_min <= _end (task_of st x) <= datetime_max.

(** [v] is the least, respectively the greatest, element of [vs]. *)
Definition is_minimum (v : Z) (vs : list Z) : Prop := v ∈ vs /\ Forall (fun w => v <= w) vs.
Definition is_maximum (v : Z) (vs : list Z) : Prop := v ∈ vs /\ Forall (fun w => w <= v) vs.

(** The equation that links effort, duration and the number of resources. *)
Definition effort_consistent (st : store) (self : nat) : Prop :=
  _effort (task_of st self)
    = Some (_duration (task_of st self)
            * Z.max 1 (Z.of_nat (length (resources (task_of st self))))).

(** The arena after the reconciliation step of [_duration_setter] on a
    leaf, whose [start] and [end] are the stored ones. *)
Definition reconciled_leaf (_validate_dates : value -> value -> value -> Z * Z * Z)
    (st : store) (self : nat) (duration : value) : store :=
  match duration with
  | VTimedelta _ =>
      validate_dates_on _validate_dates st self
        (VDatetime (_start (task_of st self))) VNone duration
  | _ =>
      validate_dates_on _validate_dates st self
        (VDatetime (_start (task_of st self))) (VDatetime (_end (task_of st self))) duration
  end.

(** The primitive hands back the duration [d] it is given with a start
    and no end. *)
Definition keeps_duration (_validate_dates : value -> value -> value -> Z * Z * Z)
    (d : Z) : Prop :=
  forall s, (_validate_dates (VDatetime s) VNone (VTimedelta d)).2 = d.

(** A priority brought into the range from 0 to 1000. *)
Definition clamp_priority (z : Z) : Z := Z.max 0 (Z.min 1000 z).

(** A leaf task with one resource, ten units of effort and of duration. *)
Definition one_resource : store :=
  {[ 1%nat := set_effort (Some 10) (set_dates 0 10 10 (set_resources [7%nat] blank_task)) ]}.

(** The overlap test in the words of the specification: [s1, e1) is the
    booking already recorded, [s2, e2) the new one. *)
Definition spec_overlap (s1 e1 s2 e2 : Z) : bool :=
  (s1 =? s2) || (e1 =? e2) || ((s2 <? e1) && (e1 <? e2)) || ((s2 <? s1) && (s1 <? e2)).

(** User 7 is booked from 2 to 5 on task 1. *)
Definition booked : gmap nat (list Booking) :=
  {[ 7%nat := [mkBooking 1 (Some 7%nat) 2 5 3] ]}.

(** The same booking in [Task.bookings]. *)
Definition booked_tasks : gmap nat (list Booking) :=
  {[ 1%nat := [mkBooking 1 (Some 7%nat) 2 5 3] ]}.

(** A task with its schedule columns blanked out: what the getters and
    setters of the schedule attributes leave alone. *)
Definition without_schedule (T : Task) : Task := set_effort None (set_dates 0 0 0 T).

(** Task 1 belongs to project 10; nothing else is in the arena. *)
Definition in_project : store := {[ 1%nat := set_project (Some 10%nat) blank_task ]}.

(** [Task(project=<project 20>, parent=<task 1>)], every other argument
    left at its default. *)
Definition other_project_args : task_args :=
  mkArgs (VProject 20) (VTask 1) None VNone VNone VNone VNone None (VBool false) (VInt 500).

(** Two arenas whose tasks agree on every column but the schedule. *)
Definition same_structure (st st' : store) : Prop :=
  forall x, without_schedule (task_of st x) = without_schedule (task_of st' x).

(** Every run of [m] takes an arena to one related to it by [R]. *)
Definition stays_within {A : Type} (R : store -> store -> Prop) (m : M A) : Prop :=
  forall st st' r, m st = Some (st', r) -> R st st'.

(** Two arenas whose tasks have the same parent, children and project. *)
Definition same_tree (st st' : store) : Prop :=
  forall x, parent (task_of st' x) = parent (task_of st x) /\
            children (task_of st' x) = children (task_of st x) /\
            _project (task_of st' x) = _project (task_of st x).

(** A milestone without resources stays one. *)
Definition stays_bare (self : nat) (st st' : store) : Prop :=
  is_milestone (task_of st self) = true -> resources (task_of st self) = [] ->
  is_milestone (task_of st' self) = true /\ resources (task_of st' self) = [].

(** ** [Task.level] *)

(** The [while current:] loop of [level]: [i] counts the tasks met so far,
    [current] is the task looked at, [None] once the chain of parents has
    ended. *)
Fixpoint level_loop (fuel : nat) (st : store) (i : nat) (current : option nat)
    : option nat :=
  match current with
  | None => Some i
  | Some c =>
      match fuel with
      | O => None
      | S fuel' => level_loop fuel' st (S i) (parent (task_of st c))
      end
  end.

Definition level (fuel : nat) (st : store) (self : nat) : option nat :=
  level_loop fuel st 0 (Some self).

(** ** More vocabulary *)

(** Two bookings that both last share a moment. *)
Definition overlap (s1 e1 s2 e2 : Z) : Prop := s1 < e2 /\ s2 < e1.

(** Task 0 is its own parent and its own child. *)
Definition own_parent : store :=
  {[ 0%nat := set_children [0%nat] (set_parent_field (Some 0%nat) blank_task) ]}.

(** Every task other than [self] keeps every column but the schedule. *)
Definition others_keep_structure (self : nat) (st st' : store) : Prop :=
  forall x, x ≠ self -> without_schedule (task_of st' x) = without_schedule (task_of st x).

(** Task 2 depends on itself; task 0 depends on task 1 and on task 2, in
    this order in [target_first] and in the other in [cycle_first]. *)
Definition target_first : store :=
  <[0%nat := set_depends [1%nat; 2%nat] blank_task]>
    (<[1%nat := blank_task]> {[ 2%nat := set_depends [2%nat] blank_task ]}).
Definition cycle_first : store :=
  <[0%nat := set_depends [2%nat; 1%nat] blank_task]>
    (<[1%nat := blank_task]> {[ 2%nat := set_depends [2%nat] blank_task ]}).

(** What [Task(project=3, parent=<task 1>)] leaves of [in_project] when it
    raises: task 2, without a project, is a child of task 1. *)
Definition after_failed : store :=
  <[2%nat := set_parent_field (Some 1%nat) blank_task]>
    {[ 1%nat := set_children [2%nat] (set_project (Some 10%nat) blank_task) ]}.

(** [Task(project=<project 20>, parent=<task 2>)], every other argument
    left at its default. *)
Definition under_failed_args : task_args :=
  mkArgs (VProject 20) (VTask 2) None VNone VNone VNone VNone None (VBool false) (VInt 500).

(** Appends to [self.depends] apart, no [depends] changes: that of [self]
    grows by tasks of [l], that of any other task stays. *)
Definition depends_grow (self : nat) (l : list value) (st st' : store) : Prop :=
  (forall t, t ≠ self -> depends (task_of st' t) = depends (task_of st t)) /\
  exists ds, depends (task_of st' self) = depends (task_of st self) ++ ds /\
             forall d, d ∈ ds -> VTask d ∈ l.

(** * Properties *)

(** The arena that a closed run ends in, taken from its evaluation. *)
Ltac exists_computed run :=
  let v := eval vm_compute in run in
  match v with
  | Some (?s, _, _) => exists s
  | Some (?s, _) => exists s
  | Some ?s => exists s
  end.

(** ** The arena *)

Lemma task_of_update_eq (st : store) t f : task_of (update t f st) t = f (task_of st t).
Proof. unfold task_of, update. by rewrite lookup_insert_eq. Qed.

Lemma task_of_update_ne (st : store) t u f : t ≠ u -> task_of (update t f st) u = task_of st u.
Proof. intros. unfold task_of, update. by rewrite lookup_insert_ne. Qed.

Lemma task_of_update (st : store) t u f :
  task_of (update t f st) u = if decide (t = u) then f (task_of st t) else task_of st u.
Proof.
  case_decide; [subst; apply task_of_update_eq | by apply task_of_update_ne].
Qed.

(** ** Conversions *)

Example int_examples :
  int_ (VStr " -12 ") = Ok (-12) /\ int_ (VStr "abc") = Raise ValueError /\
  int_ (VStr "") = Raise ValueError /\ int_ (VStr "1.5") = Raise ValueError /\
  int_ (VFloat (S754_finite true 7 (-1))) = Ok (-3) /\ int_ VNone = Raise TypeError /\
  int_ (VStr "+007") = Ok 7.
Proof. repeat split; vm_compute; reflexivity. Qed.

(** ** The cycle check *)

Section CycleCheck.

Variables (st : store) (attr : attr_name) (target : nat).

Local Abbreviation check fuel task := (_check_circular_dependency fuel st task target attr).

Lemma check_loop_ext (f g : nat -> option (result unit)) l r :
  (forall d r', f d = Some r' -> g d = Some r') ->
  check_loop f target l = Some r -> check_loop g target l = Some r.
Proof.
  intros Hfg. induction l as [|d l IH]; simpl; [done|].
  case_decide; [done|].
  destruct (f d) as [[[]|e]|] eqn:Hd; [|intros [= <-]|done].
  - rewrite (Hfg _ _ Hd). auto.
  - by rewrite (Hfg _ _ Hd).
Qed.

(** More fuel never changes an answer already given. *)
Lemma check_fuel_S fuel task r : check fuel task = Some r -> check (S fuel) task = Some r.
Proof.
  revert task r. induction fuel as [|fuel IH]; intros task r; [done|].
  intros H. change (check (S (S fuel)) task) with
    (check_loop (fun d => check (S fuel) d) target (getattr st task attr)).
  eapply check_loop_ext; [|exact H]. intros d r'. apply IH.
Qed.

Lemma check_fuel_mono fuel fuel' task r :
  (fuel <= fuel')%nat -> check fuel task = Some r -> check fuel' task = Some r.
Proof. induction 1; [done|]. intros. by apply check_fuel_S, IHle. Qed.

Lemma check_loop_raise f l e :
  check_loop f target l = Some (Raise e) ->
  (e = CircularDependencyError /\ target ∈ l) \/
  (exists d, d ∈ l /\ f d = Some (Raise e)).
Proof.
  induction l as [|d l IH]; simpl; [done|].
  case_decide as Heq.
  - intros [= <-]. left. subst. split; [done | by left].
  - destruct (f d) as [[[]|e']|] eqn:Hd; [|intros [= ->]|done].
    + intros H. destruct (IH H) as [[-> Hin]|(d' & Hin & Hd')].
      * left. split; [done | by right].
      * right. exists d'. split; [by right | done].
    + right. exists d. split; [by left | done].
Qed.

Lemma check_loop_ok f l :
  check_loop f target l = Some (Ok tt) ->
  Forall (fun d => d ≠ target /\ f d = Some (Ok tt)) l.
Proof.
  induction l as [|d l IH]; simpl; [by constructor|].
  case_decide as Heq; [done|].
  destruct (f d) as [[[]|e']|] eqn:Hd; [|done|done].
  intros H. constructor; [done | by apply IH].
Qed.

(** The only exception is [CircularDependencyError], and it is raised
    for a task that is really reached. *)
Lemma check_raise_sound fuel task e :
  check fuel task = Some (Raise e) ->
  e = CircularDependencyError /\ reaches st attr task target.
Proof.
  revert task. induction fuel as [|fuel IH]; intros task; [done|]. simpl.
  intros H. apply check_loop_raise in H as [[-> Hin]|(d & Hin & Hd)].
  - split; [done|]. by apply tc_once.
  - destruct (IH _ Hd) as [-> Hr]. split; [done|].
    eapply tc_l; [|exact Hr]. exact Hin.
Qed.

(** A check that returns has met every task reached, none of them the
    target. *)
Lemma check_ok_sound fuel task :
  check fuel task = Some (Ok tt) -> ~ reaches st attr task target.
Proof.
  revert task. induction fuel as [|fuel IH]; intros task; [done|]. simpl.
  intros H Hr. apply check_loop_ok in H.
  rewrite Forall_forall in H.
  inversion Hr as [? ? Hedge|? d ? Hedge Hrest]; subst.
  - destruct (H _ Hedge) as [Hne _]. done.
  - destruct (H _ Hedge) as [_ Hd]. by apply (IH d).
Qed.

Lemma check_ok_depth fuel task :
  check fuel task = Some (Ok tt) -> depth_below st attr fuel task.
Proof.
  revert task. induction fuel as [|fuel IH]; intros task; [done|]. simpl.
  intros H. apply check_loop_ok in H.
  eapply Forall_impl; [exact H|]. intros d [_ Hd]. by apply IH.
Qed.

Lemma check_loop_total f l :
  Forall (fun d => is_Some (f d)) l -> is_Some (check_loop f target l).
Proof.
  induction 1 as [|d l [r Hd] _ IH]; simpl; [by eexists|].
  case_decide; [by eexists|]. rewrite Hd. destruct r as [[]|e]; [done | by eexists].
Qed.

(** On a graph of bounded depth the check comes back. *)
Lemma check_terminates fuel task :
  depth_below st attr fuel task -> is_Some (check fuel task).
Proof.
  revert task. induction fuel as [|fuel IH]; intros task; [done|]. simpl.
  intros H. apply check_loop_total. eapply Forall_impl; [exact H|]. apply IH.
Qed.

Lemma depth_below_S n task : depth_below st attr n task -> depth_below st attr (S n) task.
Proof.
  revert task. induction n as [|n IH]; intros task; [done|].
  intros H. change (Forall (depth_below st attr (S n)) (getattr st task attr)).
  eapply Forall_impl; [exact H|]. apply IH.
Qed.

Lemma depth_below_mono n m task :
  (n <= m)%nat -> depth_below st attr n task -> depth_below st attr m task.
Proof. induction 1; [done|]. intros. by apply depth_below_S, IHle. Qed.

(** No infinite chain of edges starts at [task]: the depth is bounded. *)
Lemma Acc_depth_below task :
  Acc (fun y x => edge st attr x y) task -> exists n, depth_below st attr n task.
Proof.
  induction 1 as [task _ IH].
  assert (exists n, Forall (depth_below st attr n) (getattr st task attr)) as [n Hn].
  { unfold edge in IH. induction (getattr st task attr) as [|d l IHl].
    - exists O. constructor.
    - destruct IHl as [n Hn]. { intros y Hy. apply IH. by right. }
      destruct (IH d) as [m Hm]; [by left|].
      exists (n `max` m)%nat. constructor.
      + eapply depth_below_mono; [|exact Hm]. lia.
      + eapply Forall_impl; [exact Hn|]. intros x. apply depth_below_mono. lia. }
  by exists (S n).
Qed.

(** The check is decisive on a graph of bounded depth. *)
Lemma check_raises fuel task :
  depth_below st attr fuel task -> reaches st attr task target ->
  check fuel task = Some (Raise CircularDependencyError).
Proof.
  intros Hd Hreach. destruct (check_terminates _ _ Hd) as [[[]|e] Hr].
  - by apply check_ok_sound in Hr.
  - by destruct (check_raise_sound _ _ _ Hr) as [-> _].
Qed.

Lemma check_returns fuel task :
  depth_below st attr fuel task -> ~ reaches st attr task target ->
  check fuel task = Some (Ok tt).
Proof.
  intros Hd Hreach. destruct (check_terminates _ _ Hd) as [[[]|e] Hr]; [done|].
  by destruct (check_raise_sound _ _ _ Hr) as [_ ?].
Qed.

(** A task that lists itself first, the target being another task: the
    recursion never comes back. *)
Lemma check_self_loop_diverges fuel task rest :
  getattr st task attr = task :: rest -> task ≠ target -> check fuel task = None.
Proof.
  intros Hl Hne. induction fuel as [|fuel IH]; [done|].
  simpl. rewrite Hl. simpl. rewrite decide_False by done. by rewrite IH.
Qed.

End CycleCheck.

Lemma depth_below_Acc st attr n task :
  depth_below st attr n task -> Acc (fun y x => edge st attr x y) task.
Proof.
  revert task. induction n as [|n IH]; intros task; [done|]. simpl.
  rewrite Forall_forall. intros H. constructor. intros d Hd. apply IH, H, Hd.
Qed.

(** *** Adding a dependency *)

(** A dependency that closes a cycle through another task is refused and
    the arena stays as it was. *)
Lemma depends_append_rejects fuel st self other :
  depth_below st Depends fuel other -> reaches st Depends other self ->
  depends_append fuel st self (VTask other) = Some (st, Raise CircularDependencyError).
Proof.
  intros Hd Hr. unfold depends_append, _validate_depends.
  by rewrite (check_raises _ _ _ _ _ Hd Hr).
Qed.

Example chain_is_rejected :
  depends_append 3 chain 3 (VTask 1) = Some (chain, Raise CircularDependencyError).
Proof. reflexivity. Qed.

Lemma getattr_depends_append st self other x :
  getattr (update self (fun T => set_depends (depends T ++ [other]) T) st) x Depends =
  if decide (self = x) then getattr st x Depends ++ [other] else getattr st x Depends.
Proof. unfold getattr. rewrite task_of_update. by case_decide; subst. Qed.

Lemma tc_extra_edge {A} (R R' : relation A) a b :
  (forall x y, R' x y -> R x y \/ (x = a /\ y = b)) ->
  forall x y, tc R' x y -> tc R x y \/ (rtc R x a /\ rtc R b y).
Proof.
  intros HR' x y. induction 1 as [x y Hxy|x z y Hxz _ IH].
  - destruct (HR' _ _ Hxy) as [?|[-> ->]]; [left; by apply tc_once | by right].
  - destruct (HR' _ _ Hxz) as [Hxz'|[-> ->]].
    + destruct IH as [IH|[IH1 IH2]].
      * left. by eapply tc_l.
      * right. split; [by eapply rtc_l | done].
    + right. split; [done|]. destruct IH as [IH|[_ IH]]; [by apply tc_rtc | done].
Qed.

(** A dependency on another task that the validator lets through keeps
    the relation free of cycles: the task added to its own list is the
    one case that slips through. *)
Lemma depends_append_keeps_acyclic fuel st self other st' :
  acyclic st Depends -> other ≠ self ->
  depends_append fuel st self (VTask other) = Some (st', Ok tt) ->
  acyclic st' Depends.
Proof.
  intros Hacyc Hne. unfold depends_append, _validate_depends.
  destruct (_check_circular_dependency fuel st other self Depends) as [[[]|e]|] eqn:Hc;
    [|done|done].
  intros [= <-] t Ht.
  apply check_ok_sound in Hc.
  apply (tc_extra_edge (edge st Depends) _ self other) in Ht.
  - destruct Ht as [Ht|[Ht1 Ht2]]; [by apply (Hacyc t)|].
    assert (rtc (edge st Depends) other self) as Hos by (by etrans).
    apply rtc_tc in Hos as [?|?]; [done | by apply Hc].
  - intros x y. unfold edge. rewrite getattr_depends_append.
    case_decide; [|by left]. subst x.
    rewrite elem_of_app, list_elem_of_singleton. intros [?| ->]; [by left | by right].
Qed.

(** C1 (the code departs from the claim): in [_validate_depends] the walk
    starts at the new dependency and compares only the tasks found in
    [depends] lists with [self], never the new dependency itself.  A task
    with no dependency appended to its own [depends] passes the validator,
    and afterwards reaches itself by one edge. *)
Theorem self_dependency_is_accepted :
  depends_append 1 lone_task 0 (VTask 0)
    = Some (update 0 (set_depends [0%nat]) lone_task, Ok tt) /\
  reaches (update 0 (set_depends [0%nat]) lone_task) Depends 0 0.
Proof.
  split; [reflexivity|]. apply tc_once. unfold edge, getattr.
  rewrite task_of_update_eq. simpl. by left.
Qed.

(** *** Assigning a parent *)

(** Making a task the child of one of its own descendants is refused and
    the arena stays as it was. *)
Lemma parent_set_rejects fuel st self p :
  depth_below st Children fuel self -> reaches st Children self p ->
  parent_set fuel st self (VTask p) = Some (st, Raise CircularDependencyError).
Proof.
  intros Hd Hr. unfold parent_set, _validate_parent.
  by rewrite (check_raises _ _ _ _ _ Hd Hr).
Qed.

Example child_as_parent_is_rejected :
  parent_set 2 family 1 (VTask 2) = Some (family, Raise CircularDependencyError).
Proof. reflexivity. Qed.

(** C2 (the code departs from the claim): [_validate_parent] walks the
    children of [self] looking for the new parent and never compares
    [self] itself with it.  A childless task assigned as its own parent
    passes the validator; it ends up as its own parent and its own child. *)
Theorem self_parent_is_accepted :
  exists st',
    parent_set 1 lone_task 0 (VTask 0) = Some (st', Ok tt) /\
    parent (task_of st' 0) = Some 0%nat /\
    children (task_of st' 0) = [0%nat] /\
    reaches st' Children 0 0.
Proof.
  eexists. split; [reflexivity|]. split; [reflexivity|]. split; [reflexivity|].
  apply tc_once. unfold edge. by left.
Qed.

(** *** Termination of the walk *)

Lemma depth_below_rtc st attr n x y :
  depth_below st attr n x -> rtc (edge st attr) x y -> depth_below st attr n y.
Proof.
  intros Hd Hr. induction Hr as [|x z y Hxz _ IH]; [done|].
  apply IH. destruct n as [|n]; [done|]. simpl in Hd.
  rewrite Forall_forall in Hd. apply depth_below_S, Hd, Hxz.
Qed.

(** Nothing reaches itself in a graph of bounded depth. *)
Lemma depth_below_irrefl st attr n x : depth_below st attr n x -> ~ reaches st attr x x.
Proof.
  revert x. induction n as [|n IH]; intros x; [done|].
  intros Hd Hr. inversion Hr as [? ? Hxy|? z ? Hxz Hzx]; subst.
  - apply (IH x); [|done]. simpl in Hd. rewrite Forall_forall in Hd. by apply Hd.
  - apply (IH x); [|done]. apply depth_below_rtc with z; [|by apply tc_rtc].
    simpl in Hd. rewrite Forall_forall in Hd. by apply Hd.
Qed.

Lemma depth_below_intro st attr n t :
  Forall (depth_below st attr n) (getattr st t attr) -> depth_below st attr (S n) t.
Proof. done. Qed.

(** In an arena, which is finite, a relation without cycles has no chain
    longer than the number of tasks. *)
Lemma acyclic_depth_below st attr :
  acyclic st attr ->
  forall k (V : gset nat) x,
    V ⊆ dom st -> (size (dom st) <= size V + k)%nat ->
    (forall v, v ∈ V -> reaches st attr v x) ->
    depth_below st attr (S k) x.
Proof.
  intros Hac k. induction k as [|k IH]; intros V x HV Hsz Hreach;
    apply depth_below_intro, Forall_forall; intros y Hy.
  all: assert (x ∈ dom st) as Hx by
    (apply elem_of_dom; unfold getattr, task_of in Hy;
     destruct (st !! x); [done|]; destruct attr; by apply elem_of_nil in Hy).
  all: assert (x ∉ V) as HxV by (intros Hin; by apply (Hac x), Hreach).
  all: assert (size ({[x]} ∪ V) = S (size V)) as Hs
    by (rewrite size_union by (by apply disjoint_singleton_l); by rewrite size_singleton).
  all: assert ({[x]} ∪ V ⊆ dom st) as Hsub
    by (apply union_subseteq; split; [by apply singleton_subseteq_l | done]).
  all: pose proof (subseteq_size _ _ Hsub) as Hle.
  - lia.
  - apply (IH ({[x]} ∪ V) y Hsub); [lia|].
    intros v [->%elem_of_singleton|Hv]%elem_of_union.
    + by apply tc_once.
    + eapply tc_r; [by apply Hreach | exact Hy].
Qed.

Lemma acyclic_Acc st attr task :
  acyclic st attr -> Acc (fun y x => edge st attr x y) task.
Proof.
  intros Hac. apply depth_below_Acc with (S (size (dom st))).
  apply (acyclic_depth_below st attr Hac _ ∅); [apply empty_subseteq | lia |].
  by intros v ?%elem_of_empty.
Qed.

(** C8 (amended): the walk comes back, with the same answer for every
    larger fuel, whenever no infinite chain of edges starts at the task it
    is started on; the answer is [CircularDependencyError] exactly when the
    task looked for is reached.  A relation without cycles has no such
    chain.  When a cycle can be reached from the start, the walk never
    returns normally, and when the task looked for cannot be reached as
    well, it does not come back at all. *)
Theorem cycle_check_terminates_on_well_founded
    (st : store) (attr : attr_name) (task check_for_task : nat) :
  (Acc (fun y x => edge st attr x y) task ->
   exists fuel r,
     (forall fuel', (fuel <= fuel')%nat ->
        _check_circular_dependency fuel' st task check_for_task attr = Some r) /\
     (r = Raise CircularDependencyError <-> reaches st attr task check_for_task)) /\
  (acyclic st attr -> Acc (fun y x => edge st attr x y) task) /\
  (forall x, rtc (edge st attr) task x -> reaches st attr x x ->
   forall fuel,
     _check_circular_dependency fuel st task check_for_task attr ≠ Some (Ok tt) /\
     (~ reaches st attr task check_for_task ->
      _check_circular_dependency fuel st task check_for_task attr = None)).
Proof.
  split; [|split; [apply acyclic_Acc|]].
  - intros Hacc. destruct (Acc_depth_below _ _ _ Hacc) as [n Hn].
    destruct (check_terminates st attr check_for_task n task Hn) as [r Hr].
    exists n, r. split.
    + intros fuel' Hle. by eapply check_fuel_mono.
    + split.
      * intros ->. by destruct (check_raise_sound _ _ _ _ _ _ Hr).
      * intros Hreach. rewrite (check_raises _ _ _ _ _ Hn Hreach) in Hr. congruence.
  - intros x Hx Hcycle fuel.
    assert (_check_circular_dependency fuel st task check_for_task attr ≠ Some (Ok tt))
      as Hok.
    { intros H. apply check_ok_depth in H.
      by apply (depth_below_irrefl _ _ _ _ (depth_below_rtc _ _ _ _ _ H Hx)). }
    split; [done|]. intros Hno.
    destruct (_check_circular_dependency fuel st task check_for_task attr)
      as [[[]|e]|] eqn:Hr; [done| |done].
    by destruct (check_raise_sound _ _ _ _ _ _ Hr).
Qed.

Lemma depth_below_chain : depth_below chain Depends 3 1.
Proof. repeat constructor. Qed.

Lemma cycle_check_terminates_on_chain :
  Acc (fun y x => edge chain Depends x y) 1%nat /\
  exists fuel r,
    (forall fuel', (fuel <= fuel')%nat ->
       _check_circular_dependency fuel' chain 1 3 Depends = Some r) /\
    (r = Raise CircularDependencyError <-> reaches chain Depends 1 3).
Proof.
  split.
  - exact (depth_below_Acc _ _ _ _ depth_below_chain).
  - apply (proj1 (cycle_check_terminates_on_well_founded chain Depends 1 3)).
    exact (depth_below_Acc _ _ _ _ depth_below_chain).
Defined.

(** C8 as stated fails: task 0 already depends on itself; started on it
    to look for task 1, the walk does not come back for any fuel. *)
Lemma cycle_check_diverges_on_cycle :
  edge looped Depends 0 0 /\
  ~ (exists fuel, is_Some (_check_circular_dependency fuel looped 0 1 Depends)).
Proof.
  split; [by left|]. intros [fuel [r Hr]].
  by rewrite (check_self_loop_diverges looped Depends 1 fuel 0 []) in Hr.
Qed.

(** With a cycle and the task looked for both within reach, the order of
    the list decides: the walk raises when it meets the task first and
    does not come back when it enters the cycle first. *)
Example cycle_check_depends_on_the_order :
  (forall fuel, _check_circular_dependency (S fuel) target_first 0 1 Depends
                  = Some (Raise CircularDependencyError)) /\
  (forall fuel, _check_circular_dependency fuel cycle_first 0 1 Depends = None).
Proof.
  split.
  - intros fuel. reflexivity.
  - intros fuel. destruct fuel as [|fuel]; [done|].
    change (check_loop (fun t => _check_circular_dependency fuel cycle_first t 1 Depends)
              1%nat [2%nat; 1%nat] = None).
    simpl. by rewrite (check_self_loop_diverges cycle_first Depends 1 fuel 2 []).
Qed.

(** ** The date getters *)

Lemma erase_children T : children (erase T) = children T.
Proof. unfold erase. by destruct (children T) eqn:E. Qed.

Lemma erase_leaf T : children T = [] -> erase T = T.
Proof. unfold erase. by intros ->. Qed.

Lemma is_container_children st t : is_container st t = true <-> children (task_of st t) ≠ [].
Proof. unfold is_container. by destruct (children (task_of st t)). Qed.

Lemma is_container_false st t : is_container st t = false <-> children (task_of st t) = [].
Proof. unfold is_container. by destruct (children (task_of st t)). Qed.

Lemma same_inputs_sym st st' : same_inputs st st' -> same_inputs st' st.
Proof. intros H x. by rewrite H. Qed.

Lemma same_inputs_trans st1 st2 st3 :
  same_inputs st1 st2 -> same_inputs st2 st3 -> same_inputs st1 st3.
Proof. intros H1 H2 x. by rewrite H1. Qed.

Lemma same_inputs_children st st' x :
  same_inputs st st' -> children (task_of st x) = children (task_of st' x).
Proof.
  intros H.
  by rewrite <- (erase_children (task_of st x)), <- (erase_children (task_of st' x)), H.
Qed.

Lemma same_inputs_is_container st st' x :
  same_inputs st st' -> is_container st x = is_container st' x.
Proof. intros H. unfold is_container. by rewrite (same_inputs_children _ _ _ H). Qed.

Lemma same_inputs_leaf st st' x :
  same_inputs st st' -> children (task_of st x) = [] -> task_of st x = task_of st' x.
Proof.
  intros H Hl. rewrite <- (erase_leaf _ Hl), H. apply erase_leaf.
  by rewrite <- (same_inputs_children _ _ _ H).
Qed.

Lemma same_inputs_edge st st' x y :
  same_inputs st st' -> edge st Children x y -> edge st' Children x y.
Proof. intros H. unfold edge, getattr. by rewrite (same_inputs_children _ _ _ H). Qed.

Lemma same_inputs_rtc st st' x y :
  same_inputs st st' -> rtc (edge st Children) x y -> rtc (edge st' Children) x y.
Proof. intros H. apply rtc_subrel. intros ? ?. by apply same_inputs_edge. Qed.

Lemma same_inputs_depth st st' n x :
  same_inputs st st' -> depth_below st Children n x -> depth_below st' Children n x.
Proof.
  intros H. revert x. induction n as [|n IH]; intros x; [done|]. simpl.
  rewrite (same_inputs_children _ _ _ H). intros Hd.
  eapply Forall_impl; [exact Hd | apply IH].
Qed.

Section TraversalFacts.

Variables (better : Z -> Z -> bool) (rd : Task -> Z) (wr : Z -> Task -> Task) (init : Z).

Hypothesis rd_wr : forall v T, rd (wr v T) = v.
Hypothesis erase_wr : forall v T, children T ≠ [] -> erase (wr v T) = erase T.

Local Abbreviation loop := (date_loop better rd wr).
Local Abbreviation getter := (date_getter better rd wr init).
Local Abbreviation value_of := (date_value better rd init).
Local Abbreviation recur_ok := (reads_well better rd init).

Lemma same_inputs_update st self v :
  children (task_of st self) ≠ [] -> same_inputs (update self (wr v) st) st.
Proof.
  intros Hc x. rewrite task_of_update. case_decide; [subst|done]. by apply erase_wr.
Qed.

Lemma children_update st self v :
  children (task_of st self) ≠ [] ->
  children (task_of (update self (wr v) st) self) ≠ [].
Proof.
  intros Hc. by rewrite (same_inputs_children _ _ _ (same_inputs_update st self v Hc)).
Qed.

Lemma date_value_same_inputs n st st' t :
  same_inputs st st' -> value_of n st t = value_of n st' t.
Proof.
  intros H. revert t. induction n as [|n IH]; intros t; [done|]. simpl.
  rewrite (same_inputs_is_container _ _ _ H).
  destruct (is_container st' t) eqn:Hc.
  - rewrite (same_inputs_children _ _ _ H). by rewrite (mapM_ext _ _ _ IH).
  - apply is_container_false in Hc. rewrite <- (same_inputs_children _ _ _ H) in Hc.
    by rewrite (same_inputs_leaf _ _ _ H Hc).
Qed.

Lemma loop_frame recur n self :
  recur_ok recur n ->
  forall l st st', children (task_of st self) ≠ [] ->
    loop recur self st l = Some st' ->
    same_inputs st' st /\
    Forall (depth_below st Children n) l /\
    (forall x, x ≠ self -> Forall (fun c => ~ rtc (edge st Children) c x) l ->
               task_of st' x = task_of st x).
Proof.
  intros Hok. induction l as [|a l IH]; intros st st' Hc H; simpl in H.
  { injection H as <-. split; [done|]. split; [constructor | done]. }
  destruct (recur st a) as [[st1 v]|] eqn:Hr; [|done].
  destruct (Hok _ _ _ _ Hr) as (Hs1 & Hd1 & Hf1 & _).
  assert (children (task_of st1 self) ≠ []) as Hc1
    by (by rewrite (same_inputs_children _ _ _ Hs1)).
  destruct (better v (rd (task_of st1 self))).
  - destruct (recur st1 a) as [[st2 v']|] eqn:Hr2; [|done].
    destruct (Hok _ _ _ _ Hr2) as (Hs2 & _ & Hf2 & _).
    assert (children (task_of st2 self) ≠ []) as Hc2
      by (by rewrite (same_inputs_children _ _ _ Hs2)).
    pose proof (same_inputs_update st2 self v' Hc2) as Hs3.
    apply IH in H as (Hs & Hd & Hf); [|by apply children_update].
    assert (same_inputs (update self (wr v') st2) st) as Hs4
      by (eauto using same_inputs_trans).
    split; [eauto using same_inputs_trans|]. split.
    + constructor; [done|]. eapply Forall_impl; [exact Hd|].
      intros c. by apply same_inputs_depth.
    + intros x Hx Hall. inversion Hall as [|? ? Ha Hl]; subst.
      rewrite Hf; [|done|].
      * rewrite task_of_update_ne by done. rewrite Hf2; [by apply Hf1|].
        intros Hr'. apply Ha. by apply (same_inputs_rtc _ _ _ _ Hs1).
      * eapply Forall_impl; [exact Hl|]. intros c Hcx Hr'. apply Hcx.
        by apply (same_inputs_rtc _ _ _ _ Hs4).
  - apply IH in H as (Hs & Hd & Hf); [|done].
    split; [eauto using same_inputs_trans|]. split.
    + constructor; [done|]. eapply Forall_impl; [exact Hd|].
      intros c. by apply same_inputs_depth.
    + intros x Hx Hall. inversion Hall as [|? ? Ha Hl]; subst.
      rewrite Hf; [by apply Hf1|done|].
      eapply Forall_impl; [exact Hl|]. intros c Hcx Hr'. apply Hcx.
      by apply (same_inputs_rtc _ _ _ _ Hs1).
Qed.

Lemma loop_value recur n self st0 :
  recur_ok recur n ->
  forall l st st', same_inputs st st0 -> children (task_of st self) ≠ [] ->
    Forall (fun c => ~ rtc (edge st0 Children) c self) l ->
    loop recur self st l = Some st' ->
    exists vs, mapM (value_of n st0) l = Some vs /\
               rd (task_of st' self) = foldl (pick better) (rd (task_of st self)) vs.
Proof.
  intros Hok. induction l as [|a l IH]; intros st st' Hs Hc Hall H; simpl in H.
  { injection H as <-. by exists []. }
  inversion Hall as [|? ? Ha Hl]; subst.
  destruct (recur st a) as [[st1 v]|] eqn:Hr; [|done].
  destruct (Hok _ _ _ _ Hr) as (Hs1 & _ & Hf1 & Hv1).
  rewrite (date_value_same_inputs _ _ _ _ Hs) in Hv1.
  assert (children (task_of st1 self) ≠ []) as Hc1
    by (by rewrite (same_inputs_children _ _ _ Hs1)).
  assert (rd (task_of st1 self) = rd (task_of st self)) as Hrd.
  { rewrite Hf1; [done|]. intros Hr'. apply Ha.
    by apply (same_inputs_rtc _ _ _ _ Hs). }
  assert (same_inputs st1 st0) as Hs10 by (eauto using same_inputs_trans).
  destruct (better v (rd (task_of st1 self))) eqn:Hb.
  - destruct (recur st1 a) as [[st2 v']|] eqn:Hr2; [|done].
    destruct (Hok _ _ _ _ Hr2) as (Hs2 & _ & _ & Hv2).
    rewrite (date_value_same_inputs _ _ _ _ Hs10), Hv1 in Hv2.
    injection Hv2 as <-.
    assert (children (task_of st2 self) ≠ []) as Hc2
      by (by rewrite (same_inputs_children _ _ _ Hs2)).
    apply IH in H as (vs & Hvs & Hfin); [| |by apply children_update|done].
    + exists (v :: vs). split; [simpl; by rewrite Hv1, Hvs|].
      rewrite Hfin, task_of_update_eq, rd_wr. simpl.
      assert (pick better (rd (task_of st self)) v = v) as ->; [|done].
      unfold pick. by rewrite <- Hrd, Hb.
    + eapply same_inputs_trans; [by apply same_inputs_update|].
      eauto using same_inputs_trans.
  - apply IH in H as (vs & Hvs & Hfin); [|done..].
    exists (v :: vs). split; [simpl; by rewrite Hv1, Hvs|].
    rewrite Hfin. simpl.
    assert (pick better (rd (task_of st self)) v = rd (task_of st self)) as ->.
    { unfold pick. by rewrite <- Hrd, Hb. }
    by rewrite Hrd.
Qed.

Lemma getter_ok n : recur_ok (getter n) n.
Proof.
  induction n as [|n IH]; [done|]. intros st c st' v H. simpl in H.
  destruct (is_container st c) eqn:Hcont.
  - apply is_container_children in Hcont.
    pose proof (same_inputs_update st c init Hcont) as Hs0.
    pose proof (children_update st c init Hcont) as Hc0.
    rewrite (same_inputs_children _ _ c Hs0) in H.
    destruct (loop (getter n) c _ _) as [st1|] eqn:Hl; [|done].
    injection H as <- <-.
    destruct (loop_frame _ _ _ IH _ _ _ Hc0 Hl) as (Hs & Hd & Hf).
    assert (depth_below st Children (S n) c) as Hdepth.
    { simpl. eapply Forall_impl; [exact Hd|]. intros x. by apply same_inputs_depth. }
    split; [eauto using same_inputs_trans|]. split; [done|]. split.
    + intros x Hx. assert (x ≠ c) as Hne by (by intros ->; apply Hx).
      rewrite Hf; [by rewrite task_of_update_ne| done |].
      apply Forall_forall. intros d Hin Hr. apply Hx.
      eapply rtc_l; [exact Hin|]. by apply (same_inputs_rtc _ _ _ _ Hs0).
    + assert (Forall (fun d => ~ rtc (edge st Children) d c)
                (children (task_of st c))) as Hall.
      { apply Forall_forall. intros d Hin Hr.
        apply (depth_below_irrefl _ _ _ _ Hdepth). by eapply tc_rtc_r; [apply tc_once|]. }
      destruct (loop_value _ _ _ st IH _ _ _ Hs0 Hc0 Hall Hl) as (vs & Hvs & Hfin).
      simpl. apply is_container_children in Hcont. rewrite Hcont, Hvs. simpl.
      by rewrite Hfin, task_of_update_eq, rd_wr.
  - injection H as <- <-. split; [done|]. split.
    + simpl. apply is_container_false in Hcont. rewrite Hcont. constructor.
    + split; [done|]. simpl. by rewrite Hcont.
Qed.

Lemma loop_total recur n self :
  recur_ok recur n ->
  (forall st c, depth_below st Children n c -> is_Some (recur st c)) ->
  forall l st, children (task_of st self) ≠ [] ->
    Forall (depth_below st Children n) l -> is_Some (loop recur self st l).
Proof.
  intros Hok Htot. induction l as [|a l IH]; intros st Hc Hall; simpl; [done|].
  inversion Hall as [|? ? Ha Hl]; subst.
  destruct (Htot _ _ Ha) as [[st1 v] Hr]. rewrite Hr.
  destruct (Hok _ _ _ _ Hr) as (Hs1 & _ & _ & _).
  assert (children (task_of st1 self) ≠ []) as Hc1
    by (by rewrite (same_inputs_children _ _ _ Hs1)).
  assert (Forall (depth_below st1 Children n) (a :: l)) as Hall1.
  { eapply Forall_impl; [exact Hall|]. intros c.
    by apply same_inputs_depth, same_inputs_sym. }
  inversion Hall1 as [|? ? Ha1 Hl1]; subst.
  destruct (better v (rd (task_of st1 self))); [|by apply IH].
  destruct (Htot _ _ Ha1) as [[st2 v'] Hr2]. rewrite Hr2.
  destruct (Hok _ _ _ _ Hr2) as (Hs2 & _ & _ & _).
  assert (children (task_of st2 self) ≠ []) as Hc2
    by (by rewrite (same_inputs_children _ _ _ Hs2)).
  apply IH; [by apply children_update|].
  eapply Forall_impl; [exact Hl1|]. intros c.
  apply same_inputs_depth, same_inputs_sym.
  eapply same_inputs_trans; [by apply same_inputs_update | done].
Qed.

(** On a tree of bounded depth the getter comes back. *)
Lemma getter_total n st t : depth_below st Children n t -> is_Some (getter n st t).
Proof.
  revert st t. induction n as [|n IH]; intros st t; [done|]. intros Hd. simpl.
  destruct (is_container st t) eqn:Hcont; [|done].
  apply is_container_children in Hcont.
  pose proof (same_inputs_update st t init Hcont) as Hs0.
  destruct (loop_total (getter n) n t (getter_ok n) IH
              (children (task_of (update t (wr init) st) t)) (update t (wr init) st))
    as [st1 Hl].
  - by apply children_update.
  - rewrite (same_inputs_children _ _ t Hs0). simpl in Hd.
    eapply Forall_impl; [exact Hd|]. intros c.
    by apply same_inputs_depth, same_inputs_sym.
  - by rewrite Hl.
Qed.

Lemma reads_in_place n st l vs :
  Forall (depth_below st Children n) l ->
  Forall2 (fun c w => value_of n st c = Some w) l vs ->
  Forall2 (fun c w => exists stc, getter n st c = Some (stc, w)) l vs.
Proof.
  intros Hd H. induction H as [|c w l vs Hcw _ IH]; [constructor|].
  inversion Hd as [|? ? Hdc Hdl]; subst. constructor; [|by apply IH].
  destruct (getter_total _ _ _ Hdc) as [[stc w'] Hgc]. exists stc.
  destruct (getter_ok _ _ _ _ _ Hgc) as (_ & _ & _ & Hv').
  rewrite Hcw in Hv'. by injection Hv' as <-.
Qed.

(** What a container reads: the fold of [pick] over what its children
    read, each of them read in the arena as it was before. *)
Lemma getter_container n st self :
  children (task_of st self) ≠ [] ->
  depth_below st Children (S n) self ->
  exists st' vs,
    getter (S n) st self = Some (st', foldl (pick better) init vs) /\
    same_inputs st' st /\
    Forall2 (fun c w => exists stc, getter n st c = Some (stc, w))
            (children (task_of st self)) vs.
Proof.
  intros Hc Hd. destruct (getter_total _ _ _ Hd) as [[st' v] Hg].
  destruct (getter_ok _ _ _ _ _ Hg) as (Hs & _ & _ & Hv).
  simpl in Hv. apply is_container_children in Hc. rewrite Hc in Hv.
  destruct (mapM _ _) as [vs|] eqn:Hvs; [|done]. injection Hv as <-.
  exists st', vs. split; [done|]. split; [done|].
  apply mapM_Some in Hvs. by apply reads_in_place.
Qed.

(** A leaf reads the stored value and writes nothing. *)
Lemma getter_leaf n st self :
  children (task_of st self) = [] -> getter (S n) st self = Some (st, rd (task_of st self)).
Proof. intros Hc. simpl. apply is_container_false in Hc. by rewrite Hc. Qed.

End TraversalFacts.

Lemma start_loop_eq recur recur' self :
  (forall st c, recur st c = recur' st c) ->
  forall l st, start_loop recur self st l = date_loop Z.ltb _start set_start recur' self st l.
Proof.
  intros Hr. induction l as [|a l IH]; intros st; simpl; [done|].
  rewrite Hr. destruct (recur' st a) as [[st1 v]|]; [|done].
  destruct (v <? _start (task_of st1 self)); [|done].
  rewrite Hr. by destruct (recur' st1 a) as [[st2 v']|].
Qed.

Lemma start_getter_eq fuel st self :
  _start_getter fuel st self = date_getter Z.ltb _start set_start datetime_max fuel st self.
Proof.
  revert st self. induction fuel as [|fuel IH]; intros st self; simpl; [done|].
  destruct (is_container st self); [|done].
  by rewrite (start_loop_eq _ _ self IH).
Qed.

Lemma end_loop_eq recur recur' self :
  (forall st c, recur st c = recur' st c) ->
  forall l st,
    end_loop recur self st l = date_loop (fun v c => c <? v) _end set_end recur' self st l.
Proof.
  intros Hr. induction l as [|a l IH]; intros st; simpl; [done|].
  rewrite Hr. destruct (recur' st a) as [[st1 v]|]; [|done].
  destruct (_end (task_of st1 self) <? v); [|done].
  rewrite Hr. by destruct (recur' st1 a) as [[st2 v']|].
Qed.

Lemma end_getter_eq fuel st self :
  _end_getter fuel st self
    = date_getter (fun v c => c <? v) _end set_end datetime_min fuel st self.
Proof.
  revert st self. induction fuel as [|fuel IH]; intros st self; simpl; [done|].
  destruct (is_container st self); [|done].
  by rewrite (end_loop_eq _ _ self IH).
Qed.

Lemma erase_set_start v T : children T ≠ [] -> erase (set_start v T) = erase T.
Proof. destruct T as [? [|c l] ? ? ? ? ? ? ? ? ? ?]; by simpl. Qed.

Lemma erase_set_end v T : children T ≠ [] -> erase (set_end v T) = erase T.
Proof. destruct T as [? [|c l] ? ? ? ? ? ? ? ? ? ?]; by simpl. Qed.

Lemma foldl_min a vs :
  let r := foldl (pick Z.ltb) a vs in
  r <= a /\ Forall (fun w => r <= w) vs /\ (r = a \/ r ∈ vs).
Proof.
  revert a. induction vs as [|w vs IH]; intros a; simpl.
  { split; [lia|]. split; [constructor | by left]. }
  destruct (IH (pick Z.ltb a w)) as (H1 & H2 & H3).
  assert (pick Z.ltb a w = Z.min a w) as Hp by (unfold pick; destruct (Z.ltb_spec w a); lia).
  rewrite Hp in *. split; [lia|]. split.
  - constructor; [lia | done].
  - destruct H3 as [H3|H3]; [|right; by right].
    destruct (Z.min_spec a w) as [[_ Hm]|[_ Hm]]; [left; lia|].
    right. rewrite H3, Hm. by left.
Qed.

Lemma foldl_max a vs :
  let r := foldl (pick (fun v c => c <? v)) a vs in
  a <= r /\ Forall (fun w => w <= r) vs /\ (r = a \/ r ∈ vs).
Proof.
  revert a. induction vs as [|w vs IH]; intros a; simpl.
  { split; [lia|]. split; [constructor | by left]. }
  destruct (IH (pick (fun v c => c <? v) a w)) as (H1 & H2 & H3).
  assert (pick (fun v c => c <? v) a w = Z.max a w) as Hp
    by (unfold pick; destruct (Z.ltb_spec a w); lia).
  rewrite Hp in *. split; [lia|]. split.
  - constructor; [lia | done].
  - destruct H3 as [H3|H3]; [|right; by right].
    destruct (Z.max_spec a w) as [[_ Hm]|[_ Hm]]; [|left; lia].
    right. rewrite H3, Hm. by left.
Qed.

Lemma start_read_le_max n st c stc w :
  dates_valid st -> _start_getter n st c = Some (stc, w) -> w <= datetime_max.
Proof.
  intros Hv. rewrite start_getter_eq. intros Hg.
  apply (getter_ok Z.ltb _start set_start datetime_max) in Hg
    as (_ & _ & _ & Hval); [|done|apply erase_set_start].
  destruct n as [|n]; [done|]. simpl in Hval.
  destruct (is_container st c).
  - destruct (mapM _ _) as [vs|]; [|done]. injection Hval as <-.
    apply (foldl_min datetime_max vs).
  - injection Hval as <-. apply Hv.
Qed.

Lemma end_read_ge_min n st c stc w :
  dates_valid st -> _end_getter n st c = Some (stc, w) -> datetime_min <= w.
Proof.
  intros Hv. rewrite end_getter_eq. intros Hg.
  apply (getter_ok (fun v c => c <? v) _end set_end datetime_min) in Hg
    as (_ & _ & _ & Hval); [|done|apply erase_set_end].
  destruct n as [|n]; [done|]. simpl in Hval.
  destruct (is_container st c).
  - destruct (mapM _ _) as [vs|]; [|done]. injection Hval as <-.
    apply (foldl_max datetime_min vs).
  - injection Hval as <-. apply Hv.
Qed.

(** Reading [start] on a container: the least of what its children read. *)
Lemma start_getter_container fuel st self :
  children (task_of st self) ≠ [] ->
  depth_below st Children (S fuel) self ->
  dates_valid st ->
  exists st' v vs,
    _start_getter (S fuel) st self = Some (st', v) /\
    same_inputs st' st /\
    Forall2 (fun c w => exists stc, _start_getter fuel st c = Some (stc, w))
            (children (task_of st self)) vs /\
    is_minimum v vs.
Proof.
  intros Hc Hd Hv.
  destruct (getter_container Z.ltb _start set_start datetime_max
              (fun _ _ => eq_refl) erase_set_start fuel st self Hc Hd)
    as (st' & vs & Hg & Hs & Hreads).
  exists st', (foldl (pick Z.ltb) datetime_max vs), vs.
  rewrite start_getter_eq. split; [done|]. split; [done|].
  assert (Forall2 (fun c w => exists stc, _start_getter fuel st c = Some (stc, w))
            (children (task_of st self)) vs) as Hreads'.
  { eapply Forall2_impl; [exact Hreads|]. intros c w [stc Hcw]. exists stc.
    by rewrite start_getter_eq. }
  split; [done|].
  destruct (foldl_min datetime_max vs) as (Hle & Hall & [Heq|Hin]); [|by split].
  split; [|done]. destruct Hreads' as [|c w l vs' [stc Hcw] _]; [done|].
  apply start_read_le_max in Hcw; [|done].
  inversion Hall as [|? ? Hw _]; subst. rewrite Heq in *.
  assert (w = datetime_max) as -> by lia. by left.
Qed.

(** Reading [end] on a container: the greatest of what its children read. *)
Lemma end_getter_container fuel st self :
  children (task_of st self) ≠ [] ->
  depth_below st Children (S fuel) self ->
  dates_valid st ->
  exists st' v vs,
    _end_getter (S fuel) st self = Some (st', v) /\
    same_inputs st' st /\
    Forall2 (fun c w => exists stc, _end_getter fuel st c = Some (stc, w))
            (children (task_of st self)) vs /\
    is_maximum v vs.
Proof.
  intros Hc Hd Hv.
  destruct (getter_container (fun v c => c <? v) _end set_end datetime_min
              (fun _ _ => eq_refl) erase_set_end fuel st self Hc Hd)
    as (st' & vs & Hg & Hs & Hreads).
  exists st', (foldl (pick (fun v c => c <? v)) datetime_min vs), vs.
  rewrite end_getter_eq. split; [done|]. split; [done|].
  assert (Forall2 (fun c w => exists stc, _end_getter fuel st c = Some (stc, w))
            (children (task_of st self)) vs) as Hreads'.
  { eapply Forall2_impl; [exact Hreads|]. intros c w [stc Hcw]. exists stc.
    by rewrite end_getter_eq. }
  split; [done|].
  destruct (foldl_max datetime_min vs) as (Hle & Hall & [Heq|Hin]); [|by split].
  split; [|done]. destruct Hreads' as [|c w l vs' [stc Hcw] _]; [done|].
  apply end_read_ge_min in Hcw; [|done].
  inversion Hall as [|? ? Hw _]; subst. rewrite Heq in *.
  assert (w = datetime_min) as -> by lia. by left.
Qed.

Lemma start_getter_leaf fuel st self :
  children (task_of st self) = [] ->
  _start_getter (S fuel) st self = Some (st, _start (task_of st self)).
Proof. intros Hc. simpl. apply is_container_false in Hc. by rewrite Hc. Qed.

Lemma end_getter_leaf fuel st self :
  children (task_of st self) = [] ->
  _end_getter (S fuel) st self = Some (st, _end (task_of st self)).
Proof. intros Hc. simpl. apply is_container_false in Hc. by rewrite Hc. Qed.

(** Attaching a child empties the resources of the new parent. *)
Lemma parent_set_clears_resources fuel st child p st1 :
  parent_set fuel st child (VTask p) = Some (st1, Ok tt) ->
  resources (task_of st1 p) = [] /\ child ∈ children (task_of st1 p).
Proof.
  unfold parent_set, _validate_parent.
  destruct (_check_circular_dependency fuel st child p Children) as [[[]|e]|]; [|done..].
  intros [= <-]. rewrite task_of_update_eq. simpl. unfold _validate_children.
  rewrite task_of_update_eq. simpl. split; [done|].
  rewrite elem_of_app, list_elem_of_singleton. by right.
Qed.

Section ContainerFacts.

Variable _validate_dates : value -> value -> value -> Z * Z * Z.

(** C3 (amended): on a container (a task with children, the tree below
    it finite) reading [start] returns the least of the values its
    children read and reading [end] the greatest; a write to [start] or
    [end] leaves the arena as it is; and attaching a child to a task
    empties that task's resources at that moment.  Resources appended to
    a container afterwards stay. *)
Theorem container_dates_are_derived (fuel : nat) (st : store) (self : nat) :
  children (task_of st self) ≠ [] ->
  depth_below st Children (S fuel) self ->
  dates_valid st ->
  (exists st' v vs,
     _start_getter (S fuel) st self = Some (st', v) /\
     Forall2 (fun c w => exists stc, _start_getter fuel st c = Some (stc, w))
             (children (task_of st self)) vs /\
     is_minimum v vs) /\
  (exists st' v vs,
     _end_getter (S fuel) st self = Some (st', v) /\
     Forall2 (fun c w => exists stc, _end_getter fuel st c = Some (stc, w))
             (children (task_of st self)) vs /\
     is_maximum v vs) /\
  (forall x, _start_setter _validate_dates fuel st self x = Some st) /\
  (forall x, _end_setter _validate_dates fuel st self x = Some st) /\
  (forall fuel' st0 child p st1,
     parent_set fuel' st0 child (VTask p) = Some (st1, Ok tt) ->
     children (task_of st1 p) ≠ [] /\ resources (task_of st1 p) = []).
Proof.
  intros Hc Hd Hv.
  destruct (start_getter_container fuel st self Hc Hd Hv)
    as (st1 & v1 & vs1 & Hg1 & _ & Hr1 & Hm1).
  destruct (end_getter_container fuel st self Hc Hd Hv)
    as (st2 & v2 & vs2 & Hg2 & _ & Hr2 & Hm2).
  assert (is_leaf st self = false) as Hleaf.
  { unfold is_leaf. apply is_container_children in Hc. by rewrite Hc. }
  split; [by exists st1, v1, vs1|]. split; [by exists st2, v2, vs2|].
  split; [intros x; unfold _start_setter; by rewrite Hleaf|].
  split; [intros x; unfold _end_setter; by rewrite Hleaf|].
  intros fuel' st0 child p st' Hp.
  destruct (parent_set_clears_resources _ _ _ _ _ Hp) as [Hres Hin].
  split; [|done]. intros Hnil. rewrite Hnil in Hin. by apply elem_of_nil in Hin.
Qed.

End ContainerFacts.

Lemma dates_valid_family : dates_valid family.
Proof.
  intros x. unfold task_of, family, datetime_min, datetime_max.
  destruct (decide (x = 1%nat)) as [->|?]; [rewrite lookup_insert_eq; simpl; lia|].
  rewrite lookup_insert_ne by done.
  destruct (decide (x = 2%nat)) as [->|?]; [rewrite lookup_insert_eq; simpl; lia|].
  rewrite lookup_insert_ne by done.
  destruct (decide (x = 3%nat)) as [->|?]; [rewrite lookup_singleton_eq; simpl; lia|].
  rewrite lookup_singleton_ne by done. simpl. lia.
Qed.

Lemma depth_below_family : depth_below family Children 2 1.
Proof. repeat constructor. Qed.

Lemma container_dates_of_family :
  children (task_of family 1) ≠ [] /\
  depth_below family Children 2 1 /\
  dates_valid family /\
  (exists st' v vs,
     _start_getter 2 family 1 = Some (st', v) /\
     Forall2 (fun c w => exists stc, _start_getter 1 family c = Some (stc, w))
             (children (task_of family 1)) vs /\
     is_minimum v vs).
Proof.
  split; [done|]. split; [exact depth_below_family|]. split; [exact dates_valid_family|].
  apply (container_dates_are_derived reconcile 1 family 1);
    [done | exact depth_below_family | exact dates_valid_family].
Defined.

Example family_dates :
  (exists st', _start_getter 2 family 1 = Some (st', 5)) /\
  (exists st', _end_getter 2 family 1 = Some (st', 30)).
Proof. split; eexists; reflexivity. Qed.

(** C3 as stated fails: once task 2 has become the child of task 1, a
    resource appended to task 1 stays, and task 1 is a container that has
    a resource. *)
Lemma container_with_resources :
  exists st1 st2,
    parent_set 1 strangers 2 (VTask 1) = Some (st1, Ok tt) /\
    resources_append st1 1 (VUser 7) = (st2, Ok tt) /\
    children (task_of st2 1) = [2%nat] /\
    resources (task_of st2 1) = [7%nat].
Proof. do 2 eexists. repeat split; reflexivity. Qed.

(** ** Effort and duration *)

Lemma num_of_resources_pos st self : 0 < num_of_resources st self.
Proof.
  unfold num_of_resources.
  destruct (Z.eqb_spec (Z.of_nat (length (resources (task_of st self)))) 0); lia.
Qed.

Lemma num_of_resources_max st self :
  num_of_resources st self = Z.max 1 (Z.of_nat (length (resources (task_of st self)))).
Proof.
  unfold num_of_resources.
  destruct (Z.eqb_spec (Z.of_nat (length (resources (task_of st self)))) 0); lia.
Qed.

Lemma num_of_resources_same st st' self :
  resources (task_of st' self) = resources (task_of st self) ->
  num_of_resources st' self = num_of_resources st self.
Proof. unfold num_of_resources. by intros ->. Qed.

Section EffortFacts.

Variable _validate_dates : value -> value -> value -> Z * Z * Z.

Local Abbreviation on_dates := (validate_dates_on _validate_dates).
Local Abbreviation reconciled := (reconciled_leaf _validate_dates).

Lemma task_of_validate_dates_on st self a b c :
  task_of (on_dates st self a b c) self =
  set_dates (_validate_dates a b c).1.1 (_validate_dates a b c).1.2
            (_validate_dates a b c).2 (task_of st self).
Proof.
  unfold validate_dates_on. destruct (_validate_dates a b c) as [[s e] d].
  by rewrite task_of_update_eq.
Qed.

Lemma task_of_reconciled st self v :
  exists s e a b c,
    task_of (reconciled st self v) self =
    set_dates s e (_validate_dates a b c).2 (task_of st self).
Proof. destruct v; simpl; rewrite task_of_validate_dates_on; eauto 6. Qed.

Lemma duration_setter_leaf fuel st self v :
  children (task_of st self) = [] ->
  _duration_setter _validate_dates (S (S fuel)) st self v =
  let st3 := reconciled st self v in
  let new_effort_value := _duration (task_of st3 self) * num_of_resources st3 self in
  if decide (_effort (task_of st3 self) = Some new_effort_value) then Some st3
  else _effort_setter _validate_dates (S fuel) st3 self (VTimedelta new_effort_value).
Proof.
  intros Hc. cbn [_duration_setter]. rewrite start_getter_leaf by done.
  destruct v; try (rewrite end_getter_leaf by done); reflexivity.
Qed.

Lemma effort_setter_step fuel st self v :
  _effort_setter _validate_dates (S fuel) st self v =
  let effort := _validate_effort st self v in
  let st1 := update self (set_effort (Some effort)) st in
  _duration_setter _validate_dates fuel st1 self
    (VTimedelta (effort / num_of_resources st1 self)).
Proof. reflexivity. Qed.

(** A write of a duration that the primitive keeps, on a task whose
    effort already matches it, goes once through the primitive and
    does not come back to the effort setter. *)
Lemma duration_setter_settled fuel st self d :
  children (task_of st self) = [] ->
  keeps_duration _validate_dates d ->
  _effort (task_of st self) = Some (d * num_of_resources st self) ->
  let st' := on_dates st self (VDatetime (_start (task_of st self))) VNone (VTimedelta d) in
  _duration_setter _validate_dates (S (S fuel)) st self (VTimedelta d) = Some st' /\
  _duration (task_of st' self) = d /\
  _effort (task_of st' self) = Some (d * num_of_resources st self) /\
  children (task_of st' self) = [] /\
  resources (task_of st' self) = resources (task_of st self).
Proof.
  intros Hc Hk He st'. rewrite duration_setter_leaf by done. cbn zeta.
  change (reconciled st self (VTimedelta d)) with st'.
  assert (task_of st' self = set_dates
            (_validate_dates (VDatetime (_start (task_of st self))) VNone (VTimedelta d)).1.1
            (_validate_dates (VDatetime (_start (task_of st self))) VNone (VTimedelta d)).1.2
            d (task_of st self)) as HT.
  { unfold st'. rewrite task_of_validate_dates_on. by rewrite Hk. }
  assert (num_of_resources st' self = num_of_resources st self) as Hn
    by (apply num_of_resources_same; by rewrite HT).
  rewrite Hn. rewrite decide_True by (by rewrite HT).
  split; [done|]. by rewrite HT.
Qed.

Hypothesis stable : forall a b c, keeps_duration _validate_dates (_validate_dates a b c).2.

Lemma duration_setter_converges fuel st self v :
  children (task_of st self) = [] ->
  exists st',
    _duration_setter _validate_dates (S (S (S (S fuel)))) st self v = Some st' /\
    effort_consistent st' self /\
    _duration (task_of st' self) = _duration (task_of (reconciled st self v) self) /\
    children (task_of st' self) = [] /\
    resources (task_of st' self) = resources (task_of st self).
Proof.
  intros Hc. rewrite duration_setter_leaf by done. cbn zeta.
  destruct (task_of_reconciled st self v) as (s & e & a & b & c & HT).
  set (st3 := reconciled st self v) in *.
  set (d3 := _duration (task_of st3 self)).
  assert (d3 = (_validate_dates a b c).2) as Hd3 by (unfold d3; by rewrite HT).
  assert (keeps_duration _validate_dates d3) as Hk by (rewrite Hd3; apply stable).
  assert (resources (task_of st3 self) = resources (task_of st self)) as Hres
    by (by rewrite HT).
  assert (children (task_of st3 self) = []) as Hc3 by (by rewrite HT).
  case_decide as He.
  - exists st3. split; [done|]. split; [|done].
    unfold effort_consistent. by rewrite <- num_of_resources_max.
  - rewrite effort_setter_step. cbn zeta.
    set (n := num_of_resources st3 self).
    set (st4 := update self (set_effort (Some (_validate_effort st3 self (VTimedelta (d3 * n))))) st3).
    assert (task_of st4 self = set_effort (Some (d3 * n)) (task_of st3 self)) as HT4
      by (unfold st4; by rewrite task_of_update_eq).
    assert (num_of_resources st4 self = n) as Hn4
      by (apply num_of_resources_same; by rewrite HT4).
    rewrite Hn4. simpl _validate_effort.
    rewrite Z.div_mul by (pose proof (num_of_resources_pos st3 self); unfold n; lia).
    destruct (duration_setter_settled fuel st4 self d3) as (Hr & Hd & Hef & Hch & Hrs).
    + by rewrite HT4.
    + done.
    + by rewrite Hn4, HT4.
    + eexists. split; [exact Hr|]. split.
      * unfold effort_consistent. rewrite <- num_of_resources_max, Hef, Hd.
        f_equal. f_equal. symmetry. apply num_of_resources_same. exact Hrs.
      * split; [exact Hd|]. split; [exact Hch|]. by rewrite Hrs, HT4.
Qed.

Lemma effort_setter_converges fuel st self v :
  children (task_of st self) = [] ->
  let e := _validate_effort st self v in
  let n := num_of_resources st self in
  exists st',
    _effort_setter _validate_dates (S (S (S (S (S fuel))))) st self v = Some st' /\
    effort_consistent st' self /\
    _duration (task_of st' self)
      = (_validate_dates (VDatetime (_start (task_of st self))) VNone
           (VTimedelta (e / n))).2 /\
    children (task_of st' self) = [] /\
    resources (task_of st' self) = resources (task_of st self).
Proof.
  intros Hc e n. rewrite effort_setter_step. cbn zeta. fold e.
  set (st1 := update self (set_effort (Some e)) st).
  assert (task_of st1 self = set_effort (Some e) (task_of st self)) as HT1
    by (unfold st1; by rewrite task_of_update_eq).
  assert (num_of_resources st1 self = n) as Hn1
    by (apply num_of_resources_same; by rewrite HT1).
  rewrite Hn1.
  destruct (duration_setter_converges fuel st1 self (VTimedelta (e / n)))
    as (st' & Hr & Hcons & Hd & Hch & Hrs); [by rewrite HT1|].
  exists st'. split; [done|]. split; [done|]. split.
  - rewrite Hd. simpl. rewrite task_of_validate_dates_on. simpl. by rewrite HT1.
  - split; [done|]. by rewrite Hrs, HT1.
Qed.


End EffortFacts.

Lemma reconcile_keeps_duration d : keeps_duration reconcile d.
Proof. by intros s. Qed.


Example effort_is_divided :
  let st := fst (resources_append strangers 1 (VUser 8)) in
  exists st',
    _effort_setter reconcile 5 st 1 (VTimedelta 11) = Some st' /\
    _duration (task_of st' 1) = 5 /\ _effort (task_of st' 1) = Some 10.
Proof. eexists. split; [reflexivity|]. split; reflexivity. Qed.

(** ** Priority *)

Lemma int_raises v e :
  int_ v = Raise e ->
  (e = TypeError \/ e = ValueError) \/
  (e = OverflowError /\ exists s, v = VFloat (S754_infinity s)).
Proof.
  destruct v as [| | |f|s| | | | | |]; simpl; try (intros [= <-]; by do 2 left); try done.
  - destruct f as [| s | |]; simpl; try done.
    + intros [= <-]. right. split; [done | by exists s].
    + intros [= <-]. left. by right.
  - unfold int_of_string.
    destruct (strip _) as [|c ds]; simpl; [intros [= <-]; left; by right|].
    repeat (case_match; try done); intros [= <-]; left; by right.
Qed.

Lemma clamp_priority_eq z :
  (if z <? 0 then 0 else if 1000 <? z then 1000 else z) = clamp_priority z.
Proof.
  unfold clamp_priority.
  destruct (Z.ltb_spec z 0); [lia|]. destruct (Z.ltb_spec 1000 z); lia.
Qed.

Lemma is_int_small z : - maxint - 1 <= z <= maxint -> is_int z = true.
Proof. unfold is_int. intros [? ?]. apply andb_true_intro. split; by apply Z.leb_le. Qed.

Lemma maxint_above_range : 1000 <= maxint.
Proof. by vm_compute. Qed.

(** What a write to [priority] stores: the integer the value converts to
    when that is an [int], brought into the range from 0 to 1000; the
    configured default, brought into the same range, when the conversion
    gives a [long] or fails with [ValueError] or [TypeError].  The stored
    priority is always in the range, and the write raises exactly when the
    value is an infinite float, whose conversion fails with
    [OverflowError]. *)
Theorem priority_is_clamped_or_defaulted (TASK_PRIORITY : Z) (st : store) (self : nat)
    (v : value) :
  (forall z, int_ v = Ok z ->
     priority_set TASK_PRIORITY st self v
       = (update self
            (set_priority (clamp_priority (if is_int z then z else TASK_PRIORITY))) st,
          Ok tt)) /\
  (forall e, int_ v = Raise e -> e ≠ OverflowError ->
     priority_set TASK_PRIORITY st self v
       = (update self (set_priority (clamp_priority TASK_PRIORITY)) st, Ok tt)) /\
  (forall st', priority_set TASK_PRIORITY st self v = (st', Ok tt) ->
     0 <= priority (task_of st' self) <= 1000) /\
  (forall st' e, priority_set TASK_PRIORITY st self v = (st', Raise e) <->
     st' = st /\ e = OverflowError /\ exists s, v = VFloat (S754_infinity s)).
Proof.
  assert (forall z, int_ v = Ok z ->
            _validate_priority TASK_PRIORITY v
              = Ok (clamp_priority (if is_int z then z else TASK_PRIORITY))) as Hok.
  { intros z Hz. unfold _validate_priority. rewrite Hz. by rewrite clamp_priority_eq. }
  assert (forall e, int_ v = Raise e -> e ≠ OverflowError ->
            _validate_priority TASK_PRIORITY v = Ok (clamp_priority TASK_PRIORITY)) as Hdef.
  { intros e He Hne. unfold _validate_priority. rewrite He.
    destruct (int_raises _ _ He) as [[-> | ->]|[-> _]]; [| |done].
    - destruct v; simpl in He; try done; by rewrite clamp_priority_eq.
    - destruct v; simpl in He; try done; by rewrite clamp_priority_eq. }
  split; [|split; [|split]].
  - intros z Hz. unfold priority_set. by rewrite (Hok _ Hz).
  - intros e He Hne. unfold priority_set. by rewrite (Hdef _ He Hne).
  - intros st'. unfold priority_set.
    destruct (_validate_priority TASK_PRIORITY v) as [p|e] eqn:Hp; [|done].
    intros [= <-]. rewrite task_of_update_eq. simpl.
    destruct (int_ v) as [z|e] eqn:Hi.
    + pose proof (Hok _ eq_refl) as [= ->]. unfold clamp_priority. lia.
    + destruct (decide (e = OverflowError)) as [->|Hne].
      * unfold _validate_priority in Hp. by rewrite Hi in Hp.
      * pose proof (Hdef _ eq_refl Hne) as [= ->]. unfold clamp_priority. lia.
  - intros st' e. unfold priority_set. split.
    + destruct (_validate_priority TASK_PRIORITY v) as [p|e'] eqn:Hp; [done|].
      intros [= <- <-]. split; [done|].
      destruct (int_ v) as [z|e] eqn:Hi; [by pose proof (Hok _ eq_refl)|].
      destruct (int_raises _ _ Hi) as [[-> | ->]|[-> Hinf]].
      * by pose proof (Hdef _ eq_refl ltac:(done)).
      * by pose proof (Hdef _ eq_refl ltac:(done)).
      * unfold _validate_priority in Hp. rewrite Hi in Hp. simpl in Hp.
        by injection Hp as <-.
    + by intros (-> & -> & s & ->).
Qed.

Example priority_examples :
  _validate_priority 500 (VInt (-5)) = Ok 0 /\
  _validate_priority 500 (VInt 5000) = Ok 1000 /\
  _validate_priority 500 (VStr "abc") = Ok 500 /\
  _validate_priority 500 VNone = Ok 500 /\
  _validate_priority 500 (VStr "42") = Ok 42.
Proof. repeat split; vm_compute; reflexivity. Qed.

(** C9 (the code departs from the claim): writing [float('inf')] or
    [float('-inf')] to the priority of any task raises [OverflowError] and
    stores nothing.  [int()] raises it and the validator catches only
    [ValueError] and [TypeError]; [float('nan')], whose conversion raises
    [ValueError], gets the default as every other value without an
    integer does. *)
Theorem infinite_priority_raises (TASK_PRIORITY : Z) (st : store) (self : nat) (s : bool) :
  priority_set TASK_PRIORITY st self (VFloat (S754_infinity s)) = (st, Raise OverflowError) /\
  priority_set TASK_PRIORITY st self (VFloat S754_nan)
    = (update self (set_priority (clamp_priority TASK_PRIORITY)) st, Ok tt).
Proof.
  split; [reflexivity|]. unfold priority_set, _validate_priority. simpl.
  by rewrite clamp_priority_eq.
Qed.

(** An integer beyond the machine word is a [long]: it is not clamped to
    1000 but replaced by the default, as is the string of such an integer;
    [sys.maxint] itself is clamped. *)
Example long_priority_is_defaulted :
  _validate_priority 500 (VInt 5000) = Ok 1000 /\
  _validate_priority 500 (VInt maxint) = Ok 1000 /\
  _validate_priority 500 (VInt (2 ^ 63)) = Ok 500 /\
  _validate_priority 500 (VInt (- 2 ^ 63 - 1)) = Ok 500 /\
  _validate_priority 500 (VStr "99999999999999999999") = Ok 500.
Proof. repeat split; vm_compute; reflexivity. Qed.

(** ** Milestones *)

(** C7 (amended): a write to [is_milestone] runs [_validate_is_milestone]
    whenever it happens: a true value empties the resources of the task, a
    false value leaves them; the flag stored is the truth value of what
    was written and no other task changes. *)
Theorem milestone_write_empties_resources (st : store) (self : nat) (v : value) :
  resources (task_of (is_milestone_set st self v) self)
    = (if bool_of v then [] else resources (task_of st self)) /\
  is_milestone (task_of (is_milestone_set st self v) self) = bool_of v /\
  (forall x, x ≠ self -> task_of (is_milestone_set st self v) x = task_of st x).
Proof.
  unfold is_milestone_set. split; [|split].
  - rewrite task_of_update_eq. simpl.
    destruct (bool_of v); [by rewrite task_of_update_eq|done].
  - by rewrite task_of_update_eq.
  - intros x Hx. rewrite task_of_update_ne by done.
    destruct (bool_of v); [by rewrite task_of_update_ne|done].
Qed.

(** C7 as stated fails: task 1 exists with one resource; setting its
    [is_milestone] to [True] leaves it without resources. *)
Lemma milestone_toggle_strips_resources :
  resources (task_of strangers 1) = [7%nat] /\
  resources (task_of (is_milestone_set strangers 1 (VBool true)) 1) = [].
Proof. split; reflexivity. Qed.

(** ** Resources, effort and duration *)

Lemma effort_consistent_after (st st' : store) (self : nat) :
  _effort (task_of st' self) = _effort (task_of st self) ->
  _duration (task_of st' self) = _duration (task_of st self) ->
  effort_consistent st self ->
  (effort_consistent st' self <->
   _duration (task_of st self) * Z.max 1 (Z.of_nat (length (resources (task_of st' self))))
   = _duration (task_of st self) * Z.max 1 (Z.of_nat (length (resources (task_of st self))))).
Proof.
  unfold effort_consistent. intros -> -> ->. split; [by intros [= ->] | by intros ->].
Qed.

(** C5 (amended): [_validate_resources] only checks the type of a
    resource and no validator guards a removal: appending or removing a
    resource changes [resources] and leaves [effort] and [duration] as
    stored.  If the equation held before, it holds afterwards exactly when
    [duration * max(1, |resources|)] did not change. *)
Theorem resource_changes_keep_effort_and_duration (st : store) (self : nat)
    (v : value) (u : nat) :
  let st1 := (resources_append st self v).1 in
  let st2 := (resources_remove st self u).1 in
  let old := Z.max 1 (Z.of_nat (length (resources (task_of st self)))) in
  (_effort (task_of st1 self) = _effort (task_of st self) /\
   _duration (task_of st1 self) = _duration (task_of st self)) /\
  (_effort (task_of st2 self) = _effort (task_of st self) /\
   _duration (task_of st2 self) = _duration (task_of st self)) /\
  (forall u', v = VUser u' ->
     resources (task_of st1 self) = resources (task_of st self) ++ [u']) /\
  (effort_consistent st self ->
     (effort_consistent st1 self <->
      _duration (task_of st self)
        * Z.max 1 (Z.of_nat (length (resources (task_of st1 self))))
      = _duration (task_of st self) * old) /\
     (effort_consistent st2 self <->
      _duration (task_of st self)
        * Z.max 1 (Z.of_nat (length (resources (task_of st2 self))))
      = _duration (task_of st self) * old)).
Proof.
  intros st1 st2 old.
  assert (_effort (task_of st1 self) = _effort (task_of st self) /\
          _duration (task_of st1 self) = _duration (task_of st self)) as H1.
  { unfold st1, resources_append. destruct (_validate_resources v); simpl; [|done].
    by rewrite task_of_update_eq. }
  assert (_effort (task_of st2 self) = _effort (task_of st self) /\
          _duration (task_of st2 self) = _duration (task_of st self)) as H2.
  { unfold st2, resources_remove. destruct (remove_first u _); simpl; [|done].
    by rewrite task_of_update_eq. }
  split; [done|]. split; [done|]. split.
  - intros u' ->. unfold st1. simpl. by rewrite task_of_update_eq.
  - intros Hc. split; apply effort_consistent_after; tauto.
Qed.

(** C5 as stated fails: a leaf with one resource, effort 10 and duration
    10 satisfies the equation; after a second resource is appended effort
    and duration are still 10 and 10, with two resources. *)
Lemma added_resource_breaks_the_equation :
  children (task_of one_resource 1) = [] /\
  effort_consistent one_resource 1 /\
  exists st',
    resources_append one_resource 1 (VUser 8) = (st', Ok tt) /\
    _effort (task_of st' 1) = Some 10 /\
    _duration (task_of st' 1) = 10 /\
    resources (task_of st' 1) = [7%nat; 8%nat] /\
    ~ effort_consistent st' 1.
Proof.
  split; [reflexivity|]. split; [reflexivity|]. eexists.
  split; [reflexivity|]. split; [reflexivity|]. split; [reflexivity|].
  split; [reflexivity|]. unfold effort_consistent. rewrite task_of_update_eq. simpl.
  intros [= ?].
Qed.

(** ** Bookings *)

(** The test of the loop: an end point of the new booking lies strictly
    inside the recorded one, or the two start or end together. *)
Lemma overbooked_spec s1 e1 s2 e2 :
  overbooked s1 e1 s2 e2 = true <->
  s1 = s2 \/ e1 = e2 \/ s1 < e2 < e1 \/ s1 < s2 < e1.
Proof.
  unfold overbooked.
  rewrite !orb_true_iff, !andb_true_iff, !Z.eqb_eq, !Z.gtb_lt, !Z.ltb_lt. tauto.
Qed.

(** One warning for each recorded booking that passes the test, in the
    order of the list. *)
Lemma overbooking_loop_spec resource s e l w :
  w ∈ overbooking_loop resource s e l <->
  exists b, b ∈ l /\
    overbooked (booking_start b) (booking_end b) s e = true /\
    w = OverBookedWarning resource s e (booking_start b) (booking_end b).
Proof.
  induction l as [|b l IH]; simpl.
  - split; [by intros ?%elem_of_nil | by intros (b & ?%elem_of_nil & _)].
  - destruct (overbooked (booking_start b) (booking_end b) s e) eqn:Hb.
    + rewrite elem_of_cons, IH. split.
      * intros [->|(b' & Hin & Hb' & ->)]; [exists b | exists b']; (split; [|done]).
        -- by left.
        -- by right.
      * intros (b' & Hin & Hb' & ->). apply elem_of_cons in Hin as [->|Hin]; [by left|].
        right. by exists b'.
    + rewrite IH. split.
      * intros (b' & Hin & Hb' & ->). exists b'. split; [by right | done].
      * intros (b' & Hin & Hb' & ->). apply elem_of_cons in Hin as [->|Hin].
        -- by rewrite Hb in Hb'.
        -- by exists b'.
Qed.

Section BookingFacts.

Variable _validate_dates : value -> value -> value -> Z * Z * Z.

(** Whatever the warnings, a booking of a task for a user is recorded. *)
Lemma booking_is_recorded tasks users t u start end_ duration :
  exists b w,
    Booking_init _validate_dates tasks users (VTask t) (VUser u) start end_ duration
      = (<[t := bookings_of tasks t ++ [b]]> tasks,
         <[u := bookings_of users u ++ [b]]> users, w, Ok b) /\
    w = overbooking_loop u (booking_start b) (booking_end b) (bookings_of users u).
Proof.
  unfold Booking_init. destruct (_validate_dates start end_ duration) as [[s e] d].
  simpl. by do 2 eexists.
Qed.

End BookingFacts.

(** C6 (the code departs from the claim): user 7 is booked from 2 to 5;
    a new booking from 0 to 10 contains that booking, which the claim
    lists as a case to be flagged ([s2 < s1 < e2] and [s2 < e1 < e2]).
    The loop of [_validate_resource] only asks whether an end point of
    the new booking lies strictly inside the recorded one: it issues no
    warning, and the booking is recorded. *)
Theorem enclosing_booking_is_not_flagged :
  spec_overlap 2 5 0 10 = true /\
  overbooked 2 5 0 10 = false /\
  _validate_resource booked 0 10 (VUser 7) = (Ok 7%nat, []) /\
  Booking_init reconcile booked_tasks booked
      (VTask 1) (VUser 7) (VDatetime 0) (VDatetime 10) VNone
    = (<[1%nat := [mkBooking 1 (Some 7%nat) 2 5 3; mkBooking 1 (Some 7%nat) 0 10 10]]>
         booked_tasks,
       <[7%nat := [mkBooking 1 (Some 7%nat) 2 5 3; mkBooking 1 (Some 7%nat) 0 10 10]]>
         booked,
       [], Ok (mkBooking 1 (Some 7%nat) 0 10 10)).
Proof. repeat split; reflexivity. Qed.

(** The other way round the loop warns where the list of the claim has no
    case: a new booking from 3 to 4 inside the recorded one. *)
Example enclosed_booking_is_flagged :
  spec_overlap 2 5 3 4 = false /\
  _validate_resource booked 3 4 (VUser 7) = (Ok 7%nat, [OverBookedWarning 7 3 4 2 5]).
Proof. split; reflexivity. Qed.

(** ** What the schedule attributes leave alone *)

Lemma erase_without_schedule T T' :
  erase T = erase T' -> without_schedule T = without_schedule T'.
Proof.
  intros H. pose proof (erase_children T) as Hc. rewrite H, erase_children in Hc.
  revert H. unfold erase. rewrite <- Hc.
  destruct T as [? ch ? ? ? ? ? ? ? ? ? ?], T' as [? ch' ? ? ? ? ? ? ? ? ? ?].
  simpl in *. subst ch'. destruct ch; intros [= -> -> -> -> -> -> -> ->]; try done.
Qed.

Lemma start_getter_same_inputs fuel st self st' v :
  _start_getter fuel st self = Some (st', v) -> same_inputs st' st.
Proof.
  rewrite start_getter_eq. intros H.
  by apply (getter_ok Z.ltb _start set_start datetime_max) in H
    as (? & _); [|done|apply erase_set_start].
Qed.

Lemma end_getter_same_inputs fuel st self st' v :
  _end_getter fuel st self = Some (st', v) -> same_inputs st' st.
Proof.
  rewrite end_getter_eq. intros H.
  by apply (getter_ok (fun v c => c <? v) _end set_end datetime_min) in H
    as (? & _); [|done|apply erase_set_end].
Qed.

Lemma same_inputs_structure st st' : same_inputs st st' -> same_structure st st'.
Proof. intros H x. apply erase_without_schedule, H. Qed.

Lemma same_structure_trans st1 st2 st3 :
  same_structure st1 st2 -> same_structure st2 st3 -> same_structure st1 st3.
Proof. intros H1 H2 x. by rewrite H1. Qed.

Lemma same_structure_update st self f :
  (forall T, without_schedule (f T) = without_schedule T) ->
  same_structure (update self f st) st.
Proof. intros Hf x. rewrite task_of_update. by case_decide; subst. Qed.

Section SetterFrames.

Variable _validate_dates : value -> value -> value -> Z * Z * Z.

Lemma same_structure_validate_dates_on st self a b c :
  same_structure (validate_dates_on _validate_dates st self a b c) st.
Proof.
  unfold validate_dates_on. destruct (_validate_dates a b c) as [[s e] d].
  by apply same_structure_update.
Qed.

(** The two setters write schedule columns only. *)
Lemma setters_same_structure fuel :
  (forall st self v st',
     _effort_setter _validate_dates fuel st self v = Some st' -> same_structure st' st) /\
  (forall st self v st',
     _duration_setter _validate_dates fuel st self v = Some st' -> same_structure st' st).
Proof.
  induction fuel as [|fuel [IHe IHd]]; [done|]. split.
  - intros st self v st' H. rewrite effort_setter_step in H. cbn zeta in H.
    apply IHd in H. eapply same_structure_trans; [exact H|].
    by apply same_structure_update.
  - intros st self v st' H. cbn [_duration_setter] in H.
    destruct (_start_getter fuel st self) as [[st1 s]|] eqn:Hs; [|done].
    apply start_getter_same_inputs, same_inputs_structure in Hs.
    assert (forall st3, same_structure st3 st ->
              (if decide (_effort_getter st3 self
                          = Some (timedelta_mul (_duration_getter st3 self)
                                    (num_of_resources st3 self)))
               then Some st3
               else _effort_setter _validate_dates fuel st3 self
                      (VTimedelta (timedelta_mul (_duration_getter st3 self)
                                     (num_of_resources st3 self)))) = Some st' ->
              same_structure st' st) as Hfin.
    { intros st3 H3 H'. case_decide; [by injection H' as <-|].
      apply IHe in H'. by eapply same_structure_trans. }
    assert (forall b, same_structure
              (validate_dates_on _validate_dates st1 self (VDatetime s) VNone b) st) as Hnone.
    { intros b. eapply same_structure_trans; [apply same_structure_validate_dates_on|done]. }
    destruct v; first [ by eapply Hfin; [|exact H]
      | destruct (_end_getter fuel st1 self) as [[st2 e]|] eqn:He; [|done];
        apply end_getter_same_inputs, same_inputs_structure in He;
        eapply Hfin; [|exact H];
        eapply same_structure_trans; [apply same_structure_validate_dates_on|];
        by eapply same_structure_trans ].
Qed.

End SetterFrames.

(** ** Construction *)

Lemma stays_within_ret {A} R (a : A) : Reflexive R -> stays_within R (ret a).
Proof. intros HR st st' r [= <- _]. apply HR. Qed.

Lemma stays_within_bind {A B} R (m : M A) (k : A -> M B) :
  Transitive R -> stays_within R m -> (forall a, stays_within R (k a)) ->
  stays_within R (bind m k).
Proof.
  intros HR Hm Hk st st' r. unfold bind.
  destruct (m st) as [[st1 [a|e]]|] eqn:H1; [|intros [= <- _]; by eapply Hm|done].
  intros H2. etrans; [by eapply Hm | by eapply Hk].
Qed.

Lemma bind_ok {A B : Type} (m : M A) (k : A -> M B) st st' b :
  bind m k st = Some (st', Ok b) ->
  exists st1 a, m st = Some (st1, Ok a) /\ k a st1 = Some (st', Ok b).
Proof.
  unfold bind. destruct (m st) as [[st1 [a|e]]|]; [|done..].
  intros H. by exists st1, a.
Qed.

Lemma stays_within_for_each {A} R (body : A -> M unit) l :
  Reflexive R -> Transitive R -> (forall x, stays_within R (body x)) ->
  stays_within R (for_each body l).
Proof.
  intros ? ? Hb. induction l as [|x l IH]; simpl; [by apply stays_within_ret|].
  apply stays_within_bind; [done | apply Hb | done].
Qed.

Lemma stays_within_modify R f : (forall st, R st (f st)) -> stays_within R (modify f).
Proof. intros Hf st st' r [= <- _]. apply Hf. Qed.

Lemma stays_within_total {A} R (f : store -> store * result A) :
  (forall st, R st (f st).1) -> stays_within R (total f).
Proof. intros Hf st st' r. unfold total. intros [= H]. specialize (Hf st). by rewrite H in Hf. Qed.

Lemma stays_within_no_raise R f :
  (forall st st', f st = Some st' -> R st st') -> stays_within R (no_raise f).
Proof.
  intros Hf st st' r. unfold no_raise. destruct (f st) as [st1|] eqn:H; [|done].
  intros [= <- _]. by apply Hf.
Qed.

Global Instance same_tree_refl : Reflexive same_tree.
Proof. by intros st x. Qed.

Global Instance same_tree_trans : Transitive same_tree.
Proof.
  intros st1 st2 st3 H1 H2 x. destruct (H1 x) as (? & ? & ?), (H2 x) as (? & ? & ?).
  repeat split; congruence.
Qed.

Lemma same_tree_update st self f :
  (forall T, parent (f T) = parent T /\ children (f T) = children T /\
             _project (f T) = _project T) ->
  same_tree st (update self f st).
Proof. intros Hf x. rewrite task_of_update. case_decide; [subst; apply Hf | done]. Qed.

Lemma same_structure_tree st st' : same_structure st' st -> same_tree st st'.
Proof.
  intros H x. specialize (H x). unfold without_schedule in H.
  destruct (task_of st x), (task_of st' x). simpl in *. by injection H as -> -> -> -> -> -> -> ->.
Qed.

Section ConstructionFacts.

Variable _validate_dates : value -> value -> value -> Z * Z * Z.

(** From [is_milestone] on, [__init__] changes neither the place of a task
    in the tree nor its project. *)
Lemma Task_init_attributes_same_tree fuel TASK_PRIORITY self a :
  stays_within same_tree (Task_init_attributes _validate_dates fuel TASK_PRIORITY self a).
Proof.
  unfold Task_init_attributes.
  repeat (apply stays_within_bind; [apply _| |intros ?]).
  - apply stays_within_modify. intros st. unfold is_milestone_set.
    etrans; [|by apply same_tree_update].
    destruct (bool_of _); [by apply same_tree_update | done].
  - apply stays_within_modify. intros st. by apply same_tree_update.
  - apply stays_within_for_each; [apply _..|]. intros d st st' r.
    unfold depends_append. destruct (_validate_depends _ _ _ _) as [[?|?]|]; [| |done].
    + intros [= <- _]. by apply same_tree_update.
    + by intros [= <- _].
  - intros st st' r. apply stays_within_for_each; [apply _..|]. intros x.
    apply stays_within_total. intros st1. unfold resources_append.
    destruct (_validate_resources x); simpl; [by apply same_tree_update | done].
  - apply stays_within_modify. intros st. by apply same_tree_update.
  - apply stays_within_no_raise. intros st st' H.
    apply same_structure_tree.
    by apply (proj1 (setters_same_structure _validate_dates fuel)) in H.
  - apply stays_within_total. intros st. unfold priority_set.
    destruct (_validate_priority _ _); simpl; [by apply same_tree_update | done].
Qed.

Lemma task_of_insert_eq (st : store) t T : task_of (<[t := T]> st) t = T.
Proof. unfold task_of. by rewrite lookup_insert_eq. Qed.

Lemma task_of_insert_ne (st : store) t u T : t ≠ u -> task_of (<[t := T]> st) u = task_of st u.
Proof. intros. unfold task_of. by rewrite lookup_insert_ne. Qed.

(** The new object once [ScheduleMixin.__init__] has run. *)
Lemma new_object st self a b c :
  let st0 := validate_dates_on _validate_dates (<[self := blank_task]> st) self a b c in
  parent (task_of st0 self) = None /\
  (forall x, x ≠ self -> task_of st0 x = task_of st x).
Proof.
  unfold validate_dates_on. destruct (_validate_dates a b c) as [[s e] d]. split.
  - by rewrite task_of_update_eq, task_of_insert_eq.
  - intros x Hx. by rewrite task_of_update_ne, task_of_insert_ne.
Qed.

(** C10 (amended): constructing a task with neither a project nor a
    parent raises [TypeError]; a task constructed successfully on a new
    identity, its parent (if any) being a task of the arena that has a
    project, has a project: its parent's project whenever a parent is
    given, whatever the [project] argument, and the [project] argument
    when there is no parent.  Under a parent that has no project, a task
    constructed successfully with a project as argument has no project
    either, and a [RuntimeWarning] is all that tells. *)
Theorem constructed_task_has_a_project (fuel : nat) (TASK_PRIORITY : Z) (st : store)
    (self : nat) (a : task_args) :
  (arg_project a = VNone -> arg_parent a = VNone ->
   exists st1,
     Task_init _validate_dates fuel TASK_PRIORITY st self a
       = Some (st1, [], Raise TypeError)) /\
  (forall st' w,
     st !! self = None ->
     (forall p, arg_parent a = VTask p ->
                is_Some (st !! p) /\ is_Some (_project (task_of st p))) ->
     Task_init _validate_dates fuel TASK_PRIORITY st self a = Some (st', w, Ok tt) ->
     exists q,
       _project (task_of st' self) = Some q /\
       match arg_parent a with
       | VTask p => _project (task_of st p) = Some q
       | _ => arg_project a = VProject q
       end) /\
  (forall st' w p q,
     st !! self = None ->
     arg_parent a = VTask p -> is_Some (st !! p) -> _project (task_of st p) = None ->
     arg_project a = VProject q ->
     Task_init _validate_dates fuel TASK_PRIORITY st self a = Some (st', w, Ok tt) ->
     _project (task_of st' self) = None /\ w = [RuntimeWarning self None]).
Proof.
  unfold Task_init.
  destruct (new_object st self (arg_start a) (arg_end a) (arg_duration a)) as [Hp0 Hframe].
  set (st0 := validate_dates_on _validate_dates (<[self:=blank_task]> st) self
                (arg_start a) (arg_end a) (arg_duration a)) in *.
  assert (detach self st0 = st0) as Hdetach by (unfold detach; by rewrite Hp0).
  assert (forall p st1 st' w r,
            parent (task_of st1 self) = None \/
              (exists pp pq, parent (task_of st1 self) = Some pp /\
                             _project (task_of st1 pp) = Some pq /\
                             _project (task_of st pp) = Some pq) ->
            _validates_project st1 self (arg_project a) = (Ok p, w) ->
            Task_init_attributes _validate_dates fuel TASK_PRIORITY self a
              (update self (set_project p) st1) = Some (st', r) ->
            exists q, _project (task_of st' self) = Some q /\
              match parent (task_of st1 self) with
              | Some pp => _project (task_of st pp) = Some q
              | None => arg_project a = VProject q
              end) as Hrest.
  { intros p st1 st' w r Hparent Hv Hattr.
    apply Task_init_attributes_same_tree in Hattr. destruct (Hattr self) as (_ & _ & Hproj).
    rewrite task_of_update_eq in Hproj. simpl in Hproj. rewrite Hproj.
    unfold _validates_project in Hv.
    destruct Hparent as [Hnone|(pp & pq & Hpp & Hpq & Hpq')].
    - rewrite Hnone in *. destruct (arg_project a); try done. injection Hv as <- _. eauto.
    - rewrite Hpp in *. rewrite Hpq in Hv. exists pq.
      destruct (arg_project a); try done; simpl in Hv.
      + case_decide; by injection Hv as <- _.
      + case_decide; by injection Hv as <- _. }
  split; [|split].
  - intros Hproj Hpar. rewrite Hpar. simpl. rewrite Hdetach.
    unfold _validates_project. rewrite task_of_update_eq. simpl. rewrite Hproj.
    by eexists.
  - intros st' w Hfresh Hwf.
    destruct (arg_parent a) as [| | | | | | |pp| | |] eqn:Hpar; simpl; try done.
    + rewrite Hdetach.
      destruct (_validates_project _ self (arg_project a)) as [[p|e] w'] eqn:Hv; [|done].
      destruct (Task_init_attributes _ _ _ _ _ _) as [[st2 r]|] eqn:Hattr; [|done].
      intros [= <- <- ->].
      assert (parent (task_of (update self (set_parent_field None) st0) self) = None)
        as Hnone by (by rewrite task_of_update_eq).
      destruct (Hrest _ _ _ _ _ (or_introl Hnone) Hv Hattr) as (q & Hq & Hm).
      rewrite Hnone in Hm. by exists q.
    + destruct (Hwf pp eq_refl) as [Hin [pq Hpq]].
      assert (pp ≠ self) as Hne by (intros ->; rewrite Hfresh in Hin; by destruct Hin).
      unfold parent_set, _validate_parent.
      destruct (_check_circular_dependency fuel st0 self pp Children) as [[[]|e]|];
        [|done..].
      rewrite Hdetach. unfold _validate_children.
      set (st1 := update pp _ (update pp _ (update self _ st0))).
      assert (parent (task_of st1 self) = Some pp) as Hpp.
      { unfold st1. by rewrite !task_of_update_ne, task_of_update_eq by done. }
      assert (_project (task_of st1 pp) = Some pq) as Hpq1.
      { unfold st1. rewrite !task_of_update_eq. simpl.
        by rewrite task_of_update_ne, Hframe by done. }
      destruct (_validates_project st1 self (arg_project a)) as [[p|e] w'] eqn:Hv; [|done].
      destruct (Task_init_attributes _ _ _ _ _ _) as [[st2 r]|] eqn:Hattr; [|done].
      intros [= <- <- ->].
      destruct (Hrest _ _ _ _ _ (or_intror (ex_intro _ pp (ex_intro _ pq
                  (conj Hpp (conj Hpq1 Hpq))))) Hv Hattr) as (q & Hq & Hm).
      rewrite Hpp in Hm. by exists q.
  - intros st' w pp q Hfresh Hpar Hin Hnone Hproj. rewrite Hpar. simpl.
    assert (pp ≠ self) as Hne by (intros ->; rewrite Hfresh in Hin; by destruct Hin).
    unfold parent_set, _validate_parent.
    destruct (_check_circular_dependency fuel st0 self pp Children) as [[[]|e]|];
      [|done..].
    rewrite Hdetach. unfold _validate_children.
    set (st1 := update pp _ (update pp _ (update self _ st0))).
    assert (parent (task_of st1 self) = Some pp) as Hpp.
    { unfold st1. by rewrite !task_of_update_ne, task_of_update_eq by done. }
    assert (_project (task_of st1 pp) = None) as Hpq1.
    { unfold st1. rewrite !task_of_update_eq. simpl.
      by rewrite task_of_update_ne, Hframe by done. }
    assert (_validates_project st1 self (arg_project a)
            = (Ok None, [RuntimeWarning self None])) as ->.
    { unfold _validates_project. rewrite Hproj, Hpp, Hpq1. by rewrite decide_False. }
    destruct (Task_init_attributes _ _ _ _ _ _) as [[st2 r]|] eqn:Hattr; [|done].
    intros [= <- <- ->]. split; [|done].
    apply Task_init_attributes_same_tree in Hattr. destruct (Hattr self) as (_ & _ & ->).
    by rewrite task_of_update_eq.
Qed.

End ConstructionFacts.

(** C10 as stated fails: built with [project] set to project 20 and
    [parent] set to a task of project 10, the task is constructed with a
    warning and belongs to project 10, which is neither the [project]
    argument nor a case in which that argument is [None]. *)
Lemma explicit_project_is_overridden :
  arg_project other_project_args = VProject 20 /\
  exists st',
    Task_init reconcile 5 500 in_project 2 other_project_args
      = Some (st', [RuntimeWarning 2 (Some 10%nat)], Ok tt) /\
    _project (task_of st' 2) = Some 10%nat.
Proof.
  split; [reflexivity|].
  exists_computed (Task_init reconcile 5 500 in_project 2 other_project_args).
  split; vm_compute; reflexivity.
Qed.

Example orphan_task_raises :
  exists st1,
    Task_init reconcile 5 500 in_project 2
      (mkArgs VNone VNone None VNone VNone VNone VNone None (VBool false) (VInt 500))
      = Some (st1, [], Raise TypeError).
Proof. eexists. reflexivity. Qed.

(** A construction that raises on its [project] argument leaves the
    unfinished task, without a project, as a child of its parent; a task
    constructed under it with project 20 is constructed with a warning and
    has no project. *)
Example project_is_lost_under_a_failed_parent :
  Task_init reconcile 1 500 in_project 2
    (mkArgs (VInt 3) (VTask 1) None VNone VNone VNone VNone None (VBool false) (VInt 500))
    = Some (after_failed, [], Raise TypeError) /\
  exists st',
    Task_init reconcile 5 500 after_failed 3 under_failed_args
      = Some (st', [RuntimeWarning 3 None], Ok tt) /\
    _project (task_of st' 3) = None.
Proof.
  split; [vm_compute; reflexivity|].
  exists_computed (Task_init reconcile 5 500 after_failed 3 under_failed_args).
  split; vm_compute; reflexivity.
Qed.

(** *** Milestones at construction *)

Global Instance stays_bare_refl self : Reflexive (stays_bare self).
Proof. by intros st ? ?. Qed.

Global Instance stays_bare_trans self : Transitive (stays_bare self).
Proof. intros st1 st2 st3 H1 H2 Hm Hr. destruct (H1 Hm Hr). by apply H2. Qed.

Lemma stays_bare_update self st f :
  (forall T, is_milestone (f T) = is_milestone T /\ resources (f T) = resources T) ->
  stays_bare self st (update self f st).
Proof. intros Hf Hm Hr. rewrite task_of_update_eq. destruct (Hf (task_of st self)). split; congruence. Qed.

Lemma same_structure_bare self st st' : same_structure st' st -> stays_bare self st st'.
Proof.
  intros H Hm Hr. specialize (H self). unfold without_schedule in H.
  destruct (task_of st self), (task_of st' self). simpl in *.
  injection H as -> -> -> -> -> -> -> ->. by split.
Qed.

Section MilestoneAtConstruction.

Variable _validate_dates : value -> value -> value -> Z * Z * Z.

(** A task constructed with a true [is_milestone] has no resources,
    whatever the [resources] argument. *)
Lemma milestone_at_construction fuel TASK_PRIORITY st self a st' w :
  Task_init _validate_dates fuel TASK_PRIORITY st self a = Some (st', w, Ok tt) ->
  bool_of (arg_is_milestone a) = true ->
  is_milestone (task_of st' self) = true /\ resources (task_of st' self) = [].
Proof.
  unfold Task_init. intros H Hb.
  destruct (parent_set _ _ _ _) as [[st1 [[]|e]]|]; [|done..].
  destruct (_validates_project _ _ _) as [[p|e] w']; [|done].
  destruct (Task_init_attributes _ _ _ _ _ _) as [[st2 r]|] eqn:Hattr; [|done].
  injection H as <- _ ->.
  unfold Task_init_attributes in Hattr. unfold bind at 1, modify at 1 in Hattr.
  match type of Hattr with
  | ?m ?s = _ => assert (stays_within (stays_bare self) m) as Hw
  end.
  { repeat (apply stays_within_bind; [apply _| |intros ?]).
    - apply stays_within_modify. intros s. by apply stays_bare_update.
    - apply stays_within_for_each; [apply _..|]. intros d s s' r.
      unfold depends_append. destruct (_validate_depends _ _ _ _) as [[?|?]|]; [| |done].
      + intros [= <- _]. by apply stays_bare_update.
      + by intros [= <- _].
    - intros s s' r H Hm Hr. rewrite Hm in H. by injection H as <-.
    - apply stays_within_modify. intros s. by apply stays_bare_update.
    - apply stays_within_no_raise. intros s s' H. apply same_structure_bare.
      by apply (proj1 (setters_same_structure _validate_dates fuel)) in H.
    - apply stays_within_total. intros s. unfold priority_set.
      destruct (_validate_priority _ _); simpl; [by apply stays_bare_update | done]. }
  apply Hw in Hattr. apply Hattr.
  - unfold is_milestone_set. rewrite Hb. by rewrite task_of_update_eq.
  - unfold is_milestone_set. rewrite Hb. by rewrite !task_of_update_eq.
Qed.

End MilestoneAtConstruction.

Example milestone_drops_its_resources :
  exists st',
    Task_init reconcile 5 500 in_project 2
      (mkArgs VNone (VTask 1) None VNone VNone VNone VNone (Some [VUser 7]) (VBool true)
              (VInt 500))
      = Some (st', [], Ok tt) /\
    resources (task_of st' 2) = [].
Proof.
  exists_computed
    (Task_init reconcile 5 500 in_project 2
       (mkArgs VNone (VTask 1) None VNone VNone VNone VNone (Some [VUser 7]) (VBool true)
               (VInt 500))).
  split; vm_compute; reflexivity.
Qed.

(** * Further properties of the module *)

(** ** The walk, on any graph *)

(** X1: whatever the graph, cyclic or not, an answer of the walk is right:
    the only exception it raises is [CircularDependencyError], and then
    the task looked for is reached from the start by one edge or more;
    when it returns, the task looked for is not reached and the graph
    below the start has no cycle. *)
Theorem cycle_check_answers_are_right (fuel : nat) (st : store) (attr : attr_name)
    (task check_for_task : nat) :
  (forall e,
     _check_circular_dependency fuel st task check_for_task attr = Some (Raise e) ->
     e = CircularDependencyError /\ reaches st attr task check_for_task) /\
  (_check_circular_dependency fuel st task check_for_task attr = Some (Ok tt) ->
   ~ reaches st attr task check_for_task /\
   forall x, rtc (edge st attr) task x -> ~ reaches st attr x x).
Proof.
  split.
  - intros e H. by apply check_raise_sound in H.
  - intros H. split; [by apply check_ok_sound in H|].
    intros x Hx. apply check_ok_depth in H.
    eapply depth_below_irrefl, depth_below_rtc; eauto.
Qed.

Lemma reaches_chain_1_3 : reaches chain Depends 1 3.
Proof.
  apply tc_l with 2%nat; [|apply tc_once]; unfold edge; by left.
Qed.

(** X2: a dependency whose target already reaches the task, the graph
    below the target being finite, is refused with
    [CircularDependencyError] and the arena is left as it was. *)
Theorem dependency_cycle_is_refused (fuel : nat) (st : store) (self other : nat) :
  depth_below st Depends fuel other ->
  reaches st Depends other self ->
  depends_append fuel st self (VTask other) = Some (st, Raise CircularDependencyError).
Proof. apply depends_append_rejects. Qed.

Lemma dependency_cycle_is_refused_in_chain :
  depth_below chain Depends 3 1 /\
  reaches chain Depends 1 3 /\
  depends_append 3 chain 3 (VTask 1) = Some (chain, Raise CircularDependencyError).
Proof.
  split; [exact depth_below_chain|]. split; [exact reaches_chain_1_3|].
  exact (dependency_cycle_is_refused 3 chain 3 1 depth_below_chain reaches_chain_1_3).
Defined.

Lemma getattr_chain t :
  getattr chain t Depends =
  if decide (t = 1%nat) then [2%nat] else if decide (t = 2%nat) then [3%nat] else [].
Proof.
  unfold getattr, task_of, chain. simpl.
  destruct (decide (t = 1%nat)) as [->|?]; [by rewrite lookup_insert_eq|].
  rewrite lookup_insert_ne by done.
  destruct (decide (t = 2%nat)) as [->|?]; [by rewrite lookup_insert_eq|].
  rewrite lookup_insert_ne by done.
  destruct (decide (t = 3%nat)) as [->|?]; [by rewrite lookup_singleton_eq|].
  by rewrite lookup_singleton_ne.
Qed.

Lemma acyclic_chain : acyclic chain Depends.
Proof.
  intros t. apply depth_below_irrefl with 3%nat.
  assert (forall n x, getattr chain x Depends = [] -> depth_below chain Depends (S n) x)
    as H1 by (intros n x Hx; apply depth_below_intro; rewrite Hx; constructor).
  assert (depth_below chain Depends 2 2) as H2.
  { apply depth_below_intro. rewrite getattr_chain. repeat case_decide; try done.
    constructor; [|done]. apply H1. by rewrite getattr_chain. }
  apply depth_below_intro. rewrite getattr_chain. repeat case_decide; subst.
  - constructor; [exact H2 | done].
  - constructor; [|done]. apply H1. by rewrite getattr_chain.
  - constructor.
Qed.

(** X3: a relation without cycles stays without cycles when a dependency
    on another task is let through by the validator. *)
Theorem accepted_dependency_keeps_acyclic (fuel : nat) (st : store) (self other : nat)
    (st' : store) :
  acyclic st Depends -> other ≠ self ->
  depends_append fuel st self (VTask other) = Some (st', Ok tt) ->
  acyclic st' Depends.
Proof. apply depends_append_keeps_acyclic. Qed.

Lemma accepted_dependency_in_chain :
  acyclic chain Depends /\ 3%nat ≠ 1%nat /\
  depends_append 1 chain 1 (VTask 3)
    = Some (update 1 (fun T => set_depends (depends T ++ [3%nat]) T) chain, Ok tt) /\
  acyclic (update 1 (fun T => set_depends (depends T ++ [3%nat]) T) chain) Depends.
Proof.
  split; [exact acyclic_chain|]. split; [done|]. split; [reflexivity|].
  exact (accepted_dependency_keeps_acyclic 1 chain 1 3 _ acyclic_chain
           ltac:(done) eq_refl).
Defined.

Lemma tc_last_edge {A} (R : relation A) x y : tc R x y -> exists z, R z y.
Proof. induction 1 as [x y H|x z y _ _ IH]; [by exists x | done]. Qed.

(** X4: a task that no [depends] list mentions, such as a task under
    construction, never draws an exception of the cycle check: appending a
    task to its [depends], when it comes back, has succeeded. *)
Theorem unreferenced_task_accepts_any_dependency (fuel : nat) (st : store)
    (self d : nat) :
  (forall x, self ∉ getattr st x Depends) ->
  forall st' r, depends_append fuel st self (VTask d) = Some (st', r) ->
    r = Ok tt /\ depends (task_of st' self) = depends (task_of st self) ++ [d].
Proof.
  intros Hfree st' r. unfold depends_append, _validate_depends.
  destruct (_check_circular_dependency fuel st d self Depends) as [[[]|e]|] eqn:Hc;
    [| |done].
  - intros [= <- <-]. split; [done|]. by rewrite task_of_update_eq.
  - apply check_raise_sound in Hc as [_ Hr]. apply tc_last_edge in Hr as [z Hz].
    by destruct (Hfree z).
Qed.

Lemma unreferenced_task_in_chain :
  (forall x, 1%nat ∉ getattr chain x Depends) /\
  (forall st' r, depends_append 1 chain 1 (VTask 3) = Some (st', r) ->
     r = Ok tt /\ depends (task_of st' 1) = depends (task_of chain 1) ++ [3%nat]).
Proof.
  assert (forall x, 1%nat ∉ getattr chain x Depends) as Hnone.
  { intros x. rewrite getattr_chain.
    destruct (decide (x = 1%nat)) as [->|?]; [by intros [?|?%elem_of_nil]%elem_of_cons|].
    destruct (decide (x = 2%nat)) as [->|?]; [by intros [?|?%elem_of_nil]%elem_of_cons|].
    apply not_elem_of_nil. }
  split; [exact Hnone|].
  exact (unreferenced_task_accepts_any_dependency 1 chain 1 3 Hnone).
Defined.

Lemma reaches_family_1_2 : reaches family Children 1 2.
Proof. apply tc_once. unfold edge. by left. Qed.

(** X5: a task cannot be made the child of one of its descendants: with a
    finite tree below the task, the assignment raises
    [CircularDependencyError] and the arena is left as it was. *)
Theorem parent_below_itself_is_refused (fuel : nat) (st : store) (self p : nat) :
  depth_below st Children fuel self ->
  reaches st Children self p ->
  parent_set fuel st self (VTask p) = Some (st, Raise CircularDependencyError).
Proof. apply parent_set_rejects. Qed.

Lemma parent_below_itself_is_refused_in_family :
  depth_below family Children 2 1 /\
  reaches family Children 1 2 /\
  parent_set 2 family 1 (VTask 2) = Some (family, Raise CircularDependencyError).
Proof.
  split; [exact depth_below_family|]. split; [exact reaches_family_1_2|].
  exact (parent_below_itself_is_refused 2 family 1 2 depth_below_family
           reaches_family_1_2).
Defined.

(** ** Reading the dates *)

Lemma start_getter_depth fuel st t st' v :
  _start_getter fuel st t = Some (st', v) -> depth_below st Children fuel t.
Proof.
  rewrite start_getter_eq. intros H.
  by apply (getter_ok Z.ltb _start set_start datetime_max) in H
    as (_ & ? & _); [|done|apply erase_set_start].
Qed.

Lemma end_getter_depth fuel st t st' v :
  _end_getter fuel st t = Some (st', v) -> depth_below st Children fuel t.
Proof.
  rewrite end_getter_eq. intros H.
  by apply (getter_ok (fun v c => c <? v) _end set_end datetime_min) in H
    as (_ & ? & _); [|done|apply erase_set_end].
Qed.

Lemma start_getter_total fuel st t :
  depth_below st Children fuel t -> is_Some (_start_getter fuel st t).
Proof.
  rewrite start_getter_eq.
  apply (getter_total Z.ltb _start set_start datetime_max); [done|apply erase_set_start].
Qed.

Lemma end_getter_total fuel st t :
  depth_below st Children fuel t -> is_Some (_end_getter fuel st t).
Proof.
  rewrite end_getter_eq.
  apply (getter_total (fun v c => c <? v) _end set_end datetime_min);
    [done|apply erase_set_end].
Qed.

Lemma date_reads_diverge_on_cycle st t :
  reaches st Children t t ->
  forall fuel, _start_getter fuel st t = None /\ _end_getter fuel st t = None.
Proof.
  intros Hcyc fuel. split.
  - destruct (_start_getter fuel st t) as [[st' v]|] eqn:H; [|done].
    apply start_getter_depth in H. by apply depth_below_irrefl in H.
  - destruct (_end_getter fuel st t) as [[st' v]|] eqn:H; [|done].
    apply end_getter_depth in H. by apply depth_below_irrefl in H.
Qed.

(** X6: reading [start] or [end] of a task comes back, for enough fuel,
    exactly when no infinite chain of [children] edges starts at the task;
    on a task that is among its own descendants it never comes back. *)
Theorem date_reads_return_iff_tree_is_finite (st : store) (t : nat) :
  ((exists fuel, is_Some (_start_getter fuel st t)) <->
   Acc (fun y x => edge st Children x y) t) /\
  ((exists fuel, is_Some (_end_getter fuel st t)) <->
   Acc (fun y x => edge st Children x y) t) /\
  (reaches st Children t t ->
   forall fuel, _start_getter fuel st t = None /\ _end_getter fuel st t = None).
Proof.
  split; [|split].
  - split.
    + intros [fuel [[st' v] H]]. by eapply depth_below_Acc, start_getter_depth.
    + intros [n Hn]%Acc_depth_below. exists n. by apply start_getter_total.
  - split.
    + intros [fuel [[st' v] H]]. by eapply depth_below_Acc, end_getter_depth.
    + intros [n Hn]%Acc_depth_below. exists n. by apply end_getter_total.
  - apply date_reads_diverge_on_cycle.
Qed.

Example own_parent_has_no_dates :
  forall fuel, _start_getter fuel own_parent 0 = None /\ _end_getter fuel own_parent 0 = None.
Proof. apply date_reads_diverge_on_cycle. apply tc_once. unfold edge. by left. Qed.

Section RepeatedRead.

Variables (better : Z -> Z -> bool) (rd : Task -> Z) (wr : Z -> Task -> Task) (init : Z).
Hypothesis rd_wr : forall v T, rd (wr v T) = v.
Hypothesis erase_wr : forall v T, children T ≠ [] -> erase (wr v T) = erase T.

Lemma getter_repeatable fuel st t st' v :
  date_getter better rd wr init fuel st t = Some (st', v) ->
  (exists st'', date_getter better rd wr init fuel st' t = Some (st'', v)) /\
  same_structure st' st /\
  (forall x, children (task_of st x) = [] -> task_of st' x = task_of st x) /\
  (forall x, ~ rtc (edge st Children) t x -> task_of st' x = task_of st x).
Proof.
  intros H.
  destruct (getter_ok better rd wr init rd_wr erase_wr fuel st t st' v H)
    as (Hs & Hd & Hf & Hv).
  split; [|split; [|split]].
  - destruct (getter_total better rd wr init rd_wr erase_wr fuel st' t)
      as [[st'' v'] H'];
      [by apply (same_inputs_depth st st' fuel t (same_inputs_sym _ _ Hs))|].
    exists st''. rewrite H'. do 2 f_equal.
    apply (getter_ok better rd wr init rd_wr erase_wr) in H' as (_ & _ & _ & Hv').
    rewrite (date_value_same_inputs better rd init fuel st' st t Hs) in Hv'. congruence.
  - by apply same_inputs_structure.
  - intros x Hx. symmetry. by apply same_inputs_leaf; [apply same_inputs_sym|].
  - done.
Qed.

End RepeatedRead.


Example family_reads_twice :
  exists st' st'',
    _start_getter 2 family 1 = Some (st', 5) /\ _start_getter 2 st' 1 = Some (st'', 5) /\
    _start (task_of family 1) = 100 /\ _start (task_of st' 1) = 5.
Proof. do 2 eexists. repeat split; reflexivity. Qed.

(** ** Writing the schedule *)

Section ScheduleWrites.

Variable _validate_dates : value -> value -> value -> Z * Z * Z.

(** X8: a write to [effort], [duration], [start] or [end] that comes back
    has changed schedule columns only: every task keeps its parent,
    children, dependencies, resources, project, flags and priority. *)
Theorem schedule_writes_keep_structure (fuel : nat) (st : store) (self : nat)
    (v : value) (st' : store) :
  _effort_setter _validate_dates fuel st self v = Some st' \/
  _duration_setter _validate_dates fuel st self v = Some st' \/
  _start_setter _validate_dates fuel st self v = Some st' \/
  _end_setter _validate_dates fuel st self v = Some st' ->
  same_structure st' st.
Proof.
  intros [H|[H|[H|H]]].
  - by apply (proj1 (setters_same_structure _validate_dates fuel)) in H.
  - by apply (proj2 (setters_same_structure _validate_dates fuel)) in H.
  - unfold _start_setter in H. destruct (is_leaf st self); [|by injection H as <-].
    destruct (_end_getter fuel st self) as [[st1 e]|] eqn:He; [|done].
    injection H as <-. apply end_getter_same_inputs, same_inputs_structure in He.
    eapply same_structure_trans; [apply same_structure_validate_dates_on|done].
  - unfold _end_setter in H. destruct (is_leaf st self); [|by injection H as <-].
    destruct (_start_getter fuel st self) as [[st1 s]|] eqn:Hs; [|done].
    injection H as <-. apply start_getter_same_inputs, same_inputs_structure in Hs.
    eapply same_structure_trans; [apply same_structure_validate_dates_on|done].
Qed.

Hypothesis stable : forall a b c, keeps_duration _validate_dates (_validate_dates a b c).2.


End ScheduleWrites.

Lemma schedule_write_on_a_leaf :
  exists st',
    (_effort_setter reconcile 5 strangers 1 (VTimedelta 10) = Some st' \/
     _duration_setter reconcile 5 strangers 1 (VTimedelta 10) = Some st' \/
     _start_setter reconcile 5 strangers 1 (VTimedelta 10) = Some st' \/
     _end_setter reconcile 5 strangers 1 (VTimedelta 10) = Some st') /\
    same_structure st' strangers.
Proof.
  exists_computed (_effort_setter reconcile 5 strangers 1 (VTimedelta 10)).
  match goal with
  | |- _ /\ same_structure ?s _ =>
      assert (_effort_setter reconcile 5 strangers 1 (VTimedelta 10) = Some s) as H
        by (vm_compute; reflexivity)
  end.
  split; [by left|].
  exact (schedule_writes_keep_structure reconcile 5 strangers 1 (VTimedelta 10) _
           (or_introl H)).
Defined.


(** ** More on bookings *)

(** X10: for two bookings that both last (start before end), the test of
    [_validate_resource] never flags a pair that shares no moment, and
    among the pairs that share one it misses exactly those where the new
    booking begins before and ends after the recorded one. *)
Theorem overbooking_test_misses_only_enclosure (s1 e1 s2 e2 : Z) :
  s1 < e1 -> s2 < e2 ->
  (overbooked s1 e1 s2 e2 = true -> overlap s1 e1 s2 e2) /\
  (overlap s1 e1 s2 e2 -> (overbooked s1 e1 s2 e2 = false <-> s2 < s1 /\ e1 < e2)).
Proof.
  intros H1 H2. unfold overlap.
  destruct (overbooked s1 e1 s2 e2) eqn:Hb.
  - apply overbooked_spec in Hb. split; [lia|]. intros _. split; [done|lia].
  - assert (~ (s1 = s2 \/ e1 = e2 \/ s1 < e2 < e1 \/ s1 < s2 < e1)) as Hn
      by (rewrite <- overbooked_spec, Hb; done).
    split; [done|]. intros Ho. split; [lia|done].
Qed.

Lemma overbooking_test_on_an_enclosure :
  2 < 5 /\ 0 < 10 /\
  (overbooked 2 5 0 10 = true -> overlap 2 5 0 10) /\
  (overlap 2 5 0 10 -> (overbooked 2 5 0 10 = false <-> 0 < 2 /\ 5 < 10)).
Proof.
  split; [lia|]. split; [lia|].
  exact (overbooking_test_misses_only_enclosure 2 5 0 10 ltac:(lia) ltac:(lia)).
Defined.

(** X11: for a user, [_validate_resource] lets the user through and
    issues exactly one [OverBookedWarning] for each booking recorded for
    that user which starts or ends with the new booking or has an end
    point of the new booking strictly inside it; bookings of other users
    draw none. *)
Theorem overbooked_warnings_are_exact (users : gmap nat (list Booking)) (s e : Z)
    (u : nat) :
  (_validate_resource users s e (VUser u)).1 = Ok u /\
  (_validate_resource users s e (VUser u)).2
    = (fun b => OverBookedWarning u s e (booking_start b) (booking_end b))
      <$> filter (fun b => booking_start b = s \/ booking_end b = e \/
                           booking_start b < e < booking_end b \/
                           booking_start b < s < booking_end b)
                 (bookings_of users u).
Proof.
  split; [done|]. simpl. induction (bookings_of users u) as [|b l IH]; [done|].
  simpl. destruct (overbooked (booking_start b) (booking_end b) s e) eqn:Hb.
  - rewrite filter_cons_True by (by apply overbooked_spec). simpl. by rewrite IH.
  - rewrite filter_cons_False; [done|].
    rewrite <- overbooked_spec, Hb. done.
Qed.

Section BookingInit.

Variable _validate_dates : value -> value -> value -> Z * Z * Z.

(** X12: constructing a booking for a task and a user always records it,
    warnings or not: it is added, with the reconciled dates, at the end of
    the task's bookings and of the user's bookings, and no other task's or
    user's bookings change.  A [task] that is not a task raises
    [TypeError] and nothing is recorded.  A [resource] that is not a user
    raises [TypeError] after the task has been assigned: the booking,
    without a resource, stays at the end of the task's bookings, and no
    user's bookings change. *)
Theorem booking_is_recorded_or_refused (tasks users : gmap nat (list Booking))
    (task resource start end_ duration : value) :
  (forall t u, task = VTask t -> resource = VUser u ->
     exists tasks' users' w,
       let b := mkBooking t (Some u) (_validate_dates start end_ duration).1.1
                  (_validate_dates start end_ duration).1.2
                  (_validate_dates start end_ duration).2 in
       Booking_init _validate_dates tasks users task resource start end_ duration
         = (tasks', users', w, Ok b) /\
       bookings_of tasks' t = bookings_of tasks t ++ [b] /\
       bookings_of users' u = bookings_of users u ++ [b] /\
       (forall t', t' ≠ t -> bookings_of tasks' t' = bookings_of tasks t') /\
       (forall u', u' ≠ u -> bookings_of users' u' = bookings_of users u')) /\
  ((forall t, task ≠ VTask t) ->
   Booking_init _validate_dates tasks users task resource start end_ duration
     = (tasks, users, [], Raise TypeError)) /\
  (forall t, task = VTask t -> (forall u, resource ≠ VUser u) ->
     exists tasks',
       let b := mkBooking t None (_validate_dates start end_ duration).1.1
                  (_validate_dates start end_ duration).1.2
                  (_validate_dates start end_ duration).2 in
       Booking_init _validate_dates tasks users task resource start end_ duration
         = (tasks', users, [], Raise TypeError) /\
       bookings_of tasks' t = bookings_of tasks t ++ [b] /\
       (forall t', t' ≠ t -> bookings_of tasks' t' = bookings_of tasks t')).
Proof.
  unfold Booking_init. destruct (_validate_dates start end_ duration) as [[s e] d].
  split; [|split].
  - intros t u -> ->. simpl. do 3 eexists. split; [done|]. unfold bookings_of.
    rewrite !lookup_insert_eq. repeat split; [|];
      intros x Hx; by rewrite lookup_insert_ne.
  - intros Ht. destruct task; try done. by destruct (Ht id).
  - intros t -> Hu. simpl.
    assert (_validate_resource users s e resource = (Raise TypeError, [])) as ->.
    { destruct resource; try done. by destruct (Hu id). }
    eexists. split; [done|]. unfold bookings_of. rewrite lookup_insert_eq.
    split; [done|]. intros x Hx. by rewrite lookup_insert_ne.
Qed.

End BookingInit.

(** A booking for task 1 and no resource raises, and task 1 keeps the
    booking that was being built. *)
Example refused_resource_leaves_the_booking :
  Booking_init reconcile booked_tasks booked (VTask 1) VNone (VDatetime 0) (VDatetime 10) VNone
    = (<[1%nat := [mkBooking 1 (Some 7%nat) 2 5 3; mkBooking 1 None 0 10 10]]> booked_tasks,
       booked, [], Raise TypeError).
Proof. reflexivity. Qed.

Example touching_bookings_are_not_flagged :
  _validate_resource booked 5 10 (VUser 7) = (Ok 7%nat, []).
Proof. reflexivity. Qed.

(** ** The level of a task *)

Lemma level_loop_shift fuel st i current :
  level_loop fuel st (S i) current = S <$> level_loop fuel st i current.
Proof.
  revert i current. induction fuel as [|fuel IH]; intros i [c|]; simpl; try done.
Qed.

Lemma level_loop_bounds fuel st i current n :
  level_loop fuel st i current = Some n -> (i <= n <= i + fuel)%nat.
Proof.
  revert i current. induction fuel as [|fuel IH]; intros i [c|]; simpl; try done.
  - intros [= <-]. lia.
  - intros H%IH. lia.
  - intros [= <-]. lia.
Qed.

(** X13: the level of a task without parent is 1 and the level of any
    other task is one more than the level of its parent; a level that is
    returned is at least 1; and on a task that is its own parent the loop
    never ends. *)
Theorem level_counts_the_parents (fuel : nat) (st : store) (self : nat) :
  level (S fuel) st self
    = match parent (task_of st self) with
      | None => Some 1%nat
      | Some p => S <$> level fuel st p
      end /\
  (forall n, level fuel st self = Some n -> (1 <= n <= fuel)%nat) /\
  (parent (task_of st self) = Some self -> level fuel st self = None).
Proof.
  split; [|split].
  - unfold level. simpl. destruct (parent (task_of st self)) as [p|].
    + apply level_loop_shift.
    + by destruct fuel.
  - unfold level. intros n H. destruct fuel as [|fuel]; [done|]. simpl in H.
    apply level_loop_bounds in H. lia.
  - intros Hp. unfold level. generalize 0%nat.
    induction fuel as [|fuel IH]; intros i; [done|]. simpl. rewrite Hp. apply IH.
Qed.

Example levels_in_the_family :
  level 2 family 1 = Some 1%nat /\ level 2 family 2 = Some 2%nat /\
  level 5 own_parent 0 = None.
Proof. repeat split; reflexivity. Qed.


(** ** Attaching a child and reading the dates *)

(** X16: when a task without children and without parent becomes the
    child of another task without children, that task turns into a
    container whose [start] and [end] read the dates of the new child,
    whatever dates it stored itself. *)
Theorem first_child_gives_its_dates (st : store) (self p : nat) :
  p ≠ self ->
  children (task_of st p) = [] ->
  children (task_of st self) = [] ->
  parent (task_of st self) = None ->
  _start (task_of st self) <= datetime_max ->
  datetime_min <= _end (task_of st self) ->
  exists st1,
    parent_set 1 st self (VTask p) = Some (st1, Ok tt) /\
    (exists st2, _start_getter 2 st1 p = Some (st2, _start (task_of st self))) /\
    (exists st3, _end_getter 2 st1 p = Some (st3, _end (task_of st self))).
Proof.
  intros Hne Hcp Hcs Hps Hs He.
  unfold parent_set, _validate_parent. simpl. unfold getattr. rewrite Hcs. simpl.
  unfold detach. rewrite Hps. unfold _validate_children.
  set (st1 := update p _ (update p _ (update self _ st))).
  assert (task_of st1 p
          = set_children [self] (set_resources [] (task_of st p))) as HTp.
  { unfold st1. rewrite !task_of_update_eq, task_of_update_ne by done. simpl.
    by rewrite Hcp. }
  assert (task_of st1 self = set_parent_field (Some p) (task_of st self)) as HTs.
  { unfold st1. by rewrite !task_of_update_ne, task_of_update_eq by done. }
  exists st1. split; [done|]. split.
  - cbn [_start_getter]. unfold is_container. rewrite HTp. simpl.
    rewrite task_of_update_eq, HTp. simpl.
    unfold is_container. rewrite task_of_update_ne, HTs by done. simpl. rewrite Hcs. simpl.
    rewrite task_of_update_eq. simpl.
    destruct (Z.ltb_spec (_start (task_of st self)) datetime_max).
    + rewrite task_of_update_ne, HTs by done. simpl. rewrite Hcs. simpl.
      eexists. by rewrite task_of_update_eq.
    + eexists. rewrite task_of_update_eq. simpl. do 2 f_equal. lia.
  - cbn [_end_getter]. unfold is_container. rewrite HTp. simpl.
    rewrite task_of_update_eq, HTp. simpl.
    unfold is_container. rewrite task_of_update_ne, HTs by done. simpl. rewrite Hcs. simpl.
    rewrite task_of_update_eq. simpl.
    destruct (Z.ltb_spec datetime_min (_end (task_of st self))).
    + rewrite task_of_update_ne, HTs by done. simpl. rewrite Hcs. simpl.
      eexists. by rewrite task_of_update_eq.
    + eexists. rewrite task_of_update_eq. simpl. do 2 f_equal. lia.
Qed.

Lemma first_child_of_a_stranger :
  1%nat ≠ 2%nat /\
  children (task_of strangers 1) = [] /\
  children (task_of strangers 2) = [] /\
  parent (task_of strangers 2) = None /\
  _start (task_of strangers 2) <= datetime_max /\
  datetime_min <= _end (task_of strangers 2) /\
  exists st1,
    parent_set 1 strangers 2 (VTask 1) = Some (st1, Ok tt) /\
    (exists st2, _start_getter 2 st1 1 = Some (st2, _start (task_of strangers 2))) /\
    (exists st3, _end_getter 2 st1 1 = Some (st3, _end (task_of strangers 2))).
Proof.
  assert (_start (task_of strangers 2) <= datetime_max) as Hs by (by vm_compute).
  assert (datetime_min <= _end (task_of strangers 2)) as He by (by vm_compute).
  repeat (split; [done|]).
  exact (first_child_gives_its_dates strangers 2 1 ltac:(done) eq_refl eq_refl eq_refl
           Hs He).
Defined.

(** ** More on construction *)

Section MoreConstruction.

Variable _validate_dates : value -> value -> value -> Z * Z * Z.

(** X15: a task constructed with a true [is_milestone] is a milestone
    without resources, whatever was passed as [resources]. *)
Theorem milestone_is_constructed_without_resources (fuel : nat) (TASK_PRIORITY : Z)
    (st : store) (self : nat) (a : task_args) (st' : store) (w : list warning) :
  Task_init _validate_dates fuel TASK_PRIORITY st self a = Some (st', w, Ok tt) ->
  bool_of (arg_is_milestone a) = true ->
  is_milestone (task_of st' self) = true /\ resources (task_of st' self) = [].
Proof. apply milestone_at_construction. Qed.

(** X17: a construction that fails leaves its traces.  With a task as
    [parent] and a [project] that is neither [None] nor a project, the
    constructor raises [TypeError] only after the parent has been
    assigned: the parent has lost its resources and lists the unfinished
    task among its children. *)
Theorem failed_construction_still_attaches (fuel : nat) (TASK_PRIORITY : Z)
    (st : store) (self p : nat) (a : task_args) :
  arg_parent a = VTask p -> p ≠ self ->
  arg_project a ≠ VNone -> (forall q, arg_project a ≠ VProject q) ->
  exists st1,
    Task_init _validate_dates (S fuel) TASK_PRIORITY st self a
      = Some (st1, [], Raise TypeError) /\
    resources (task_of st1 p) = [] /\
    children (task_of st1 p) = children (task_of st p) ++ [self] /\
    parent (task_of st1 self) = Some p.
Proof.
  intros Hpar Hne Hnone Hproj. unfold Task_init. rewrite Hpar.
  destruct (new_object _validate_dates st self (arg_start a) (arg_end a) (arg_duration a))
    as [Hp0 Hframe].
  set (st0 := validate_dates_on _validate_dates (<[self:=blank_task]> st) self
                (arg_start a) (arg_end a) (arg_duration a)) in *.
  assert (children (task_of st0 self) = []) as Hc0.
  { unfold st0, validate_dates_on.
    destruct (_validate_dates _ _ _) as [[s e] d].
    by rewrite task_of_update_eq, task_of_insert_eq. }
  unfold parent_set, _validate_parent. cbn [_check_circular_dependency].
  unfold getattr. rewrite Hc0. cbn [check_loop].
  unfold detach. rewrite Hp0. unfold _validate_children.
  set (st1 := update p _ (update p _ (update self _ st0))).
  assert (_validates_project st1 self (arg_project a) = (Raise TypeError, [])) as ->.
  { unfold _validates_project. destruct (arg_project a); try done. by destruct (Hproj id). }
  assert (task_of st1 p
          = set_children (children (task_of st p) ++ [self])
              (set_resources [] (task_of st p))) as HTp.
  { unfold st1. rewrite !task_of_update_eq, task_of_update_ne by done. simpl.
    by rewrite Hframe. }
  assert (parent (task_of st1 self) = Some p) as HTs.
  { unfold st1. by rewrite !task_of_update_ne, task_of_update_eq by done. }
  exists st1. split; [done|]. by rewrite HTp.
Qed.

End MoreConstruction.

Lemma milestone_built_in_a_project :
  exists st',
    Task_init reconcile 5 500 in_project 2
      (mkArgs VNone (VTask 1) None VNone VNone VNone VNone (Some [VUser 7]) (VBool true)
              (VInt 500))
      = Some (st', [], Ok tt) /\
    bool_of (VBool true) = true /\
    is_milestone (task_of st' 2) = true /\ resources (task_of st' 2) = [].
Proof.
  exists_computed
    (Task_init reconcile 5 500 in_project 2
       (mkArgs VNone (VTask 1) None VNone VNone VNone VNone (Some [VUser 7]) (VBool true)
               (VInt 500))).
  match goal with
  | |- ?run = Some (?s, _, _) /\ _ =>
      assert (run = Some (s, [], Ok tt)) as H by (vm_compute; reflexivity)
  end.
  split; [exact H|]. split; [done|].
  exact (milestone_is_constructed_without_resources reconcile 5 500 in_project 2 _ _ _
           H eq_refl).
Defined.

Lemma failed_construction_in_a_project :
  VTask 1 = VTask 1 /\ 1%nat ≠ 2%nat /\ VInt 3 ≠ VNone /\
  (forall q, VInt 3 ≠ VProject q) /\
  exists st1,
    Task_init reconcile 1 500 (update 1 (set_resources [7%nat]) in_project) 2
      (mkArgs (VInt 3) (VTask 1) None VNone VNone VNone VNone None (VBool false) (VInt 500))
      = Some (st1, [], Raise TypeError) /\
    resources (task_of st1 1) = [] /\
    children (task_of st1 1)
      = children (task_of (update 1 (set_resources [7%nat]) in_project) 1) ++ [2%nat] /\
    parent (task_of st1 2) = Some 1%nat.
Proof.
  repeat (split; [done|]).
  exact (failed_construction_still_attaches reconcile 0 500 _ 2 1
           (mkArgs (VInt 3) (VTask 1) None VNone VNone VNone VNone None (VBool false)
                   (VInt 500))
           eq_refl ltac:(done) ltac:(done) ltac:(done)).
Defined.

(** ** More on the priority *)

(** X18: a priority that the validator has produced is in the range and
    passes the validator unchanged when it is written again. *)
Theorem stored_priority_is_stable (TASK_PRIORITY : Z) (v : value) (p : Z) :
  _validate_priority TASK_PRIORITY v = Ok p ->
  0 <= p <= 1000 /\ forall d, _validate_priority d (VInt p) = Ok p.
Proof.
  intros H. assert (0 <= p <= 1000) as Hr.
  { unfold _validate_priority in H.
    destruct (match int_ v with
              | Ok z => Ok (VInt z)
              | Raise ValueError | Raise TypeError => Ok v
              | Raise e => Raise e
              end) as [c|e]; [|done].
    injection H as <-. rewrite clamp_priority_eq. unfold clamp_priority. lia. }
  split; [done|]. intros d. unfold _validate_priority. simpl.
  rewrite is_int_small by (pose proof maxint_above_range; lia).
  rewrite clamp_priority_eq. unfold clamp_priority. f_equal. lia.
Qed.

Lemma stored_priority_of_a_string :
  _validate_priority 500 (VStr "5000") = Ok 1000 /\
  0 <= 1000 <= 1000 /\ forall d, _validate_priority d (VInt 1000) = Ok 1000.
Proof.
  split; [by vm_compute|].
  exact (stored_priority_is_stable 500 (VStr "5000") 1000 ltac:(by vm_compute)).
Defined.

(** ** Reparenting and the tree *)

Lemma detach_children c st x y :
  y ∈ children (task_of (detach c st) x) -> y ∈ children (task_of st x).
Proof.
  unfold detach. destruct (parent (task_of st c)) as [old|]; [|done].
  rewrite task_of_update. case_decide; [subst; simpl|done].
  by intros [_ ?]%list_elem_of_filter.
Qed.

Lemma parent_set_edges fuel st self p st' x y :
  p ≠ self ->
  parent_set fuel st self (VTask p) = Some (st', Ok tt) ->
  edge st' Children x y -> edge st Children x y \/ (x = p /\ y = self).
Proof.
  intros Hne. unfold parent_set, _validate_parent.
  destruct (_check_circular_dependency fuel st self p Children) as [[[]|e]|]; [|done..].
  intros [= <-]. unfold edge, getattr, _validate_children.
  rewrite task_of_update. case_decide as Hx.
  - subst x. simpl. rewrite task_of_update_eq. simpl. rewrite task_of_update_ne by done.
    rewrite elem_of_app, list_elem_of_singleton.
    intros [Hy|Hy]; [left; by apply detach_children in Hy | by right].
  - rewrite task_of_update_ne by done. rewrite task_of_update.
    case_decide; [subst; simpl|]; intros Hy; left; by apply detach_children in Hy.
Qed.

(** X19: a tree without cycles stays without cycles when a task is given
    another task as parent and the validator lets the assignment
    through. *)
Theorem accepted_parent_keeps_acyclic (fuel : nat) (st : store) (self p : nat)
    (st' : store) :
  acyclic st Children -> p ≠ self ->
  parent_set fuel st self (VTask p) = Some (st', Ok tt) ->
  acyclic st' Children.
Proof.
  intros Hacyc Hne Hset t Ht.
  assert (~ reaches st Children self p) as Hnot.
  { unfold parent_set, _validate_parent in Hset.
    destruct (_check_circular_dependency fuel st self p Children) as [[[]|e]|] eqn:Hc;
      [|done..].
    by apply check_ok_sound in Hc. }
  apply (tc_extra_edge (edge st Children) _ p self) in Ht.
  - destruct Ht as [Ht|[Ht1 Ht2]]; [by apply (Hacyc t)|].
    assert (rtc (edge st Children) self p) as Hsp by (by etrans).
    apply rtc_tc in Hsp as [?|?]; [by subst | done].
  - intros x y. by apply parent_set_edges with fuel.
Qed.

Lemma strangers_have_no_children t : children (task_of strangers t) = [].
Proof.
  unfold task_of, strangers.
  destruct (decide (t = 1%nat)) as [->|?]; [by rewrite lookup_insert_eq|].
  rewrite lookup_insert_ne by done.
  destruct (decide (t = 2%nat)) as [->|?]; [by rewrite lookup_singleton_eq|].
  by rewrite lookup_singleton_ne.
Qed.

Lemma acyclic_strangers : acyclic strangers Children.
Proof.
  intros t Ht. assert (exists y, edge strangers Children t y) as [y Hy]
    by (inversion Ht; eauto).
  unfold edge, getattr in Hy. rewrite strangers_have_no_children in Hy.
  by apply elem_of_nil in Hy.
Qed.

Lemma accepted_parent_among_strangers :
  exists st',
    acyclic strangers Children /\ 1%nat ≠ 2%nat /\
    parent_set 1 strangers 2 (VTask 1) = Some (st', Ok tt) /\
    acyclic st' Children.
Proof.
  exists_computed (parent_set 1 strangers 2 (VTask 1)).
  match goal with
  | |- _ /\ _ /\ ?run = Some (?s, _) /\ _ =>
      assert (run = Some (s, Ok tt)) as H by (vm_compute; reflexivity)
  end.
  split; [exact acyclic_strangers|]. split; [done|]. split; [exact H|].
  exact (accepted_parent_keeps_acyclic 1 strangers 2 1 _ acyclic_strangers ltac:(done) H).
Defined.

(** ** Construction and the other tasks *)

Global Instance others_keep_structure_refl self : Reflexive (others_keep_structure self).
Proof. by intros st x Hx. Qed.

Global Instance others_keep_structure_trans self :
  Transitive (others_keep_structure self).
Proof. intros st1 st2 st3 H1 H2 x Hx. by rewrite H2, H1. Qed.

Lemma others_keep_structure_update self st f :
  others_keep_structure self st (update self f st).
Proof. intros x Hx. by rewrite task_of_update_ne. Qed.

Lemma same_structure_others self st st' :
  same_structure st' st -> others_keep_structure self st st'.
Proof. intros H x _. apply H. Qed.

(** ** The backref of [depends] *)

Lemma elem_of_dependent_of st x t :
  t ∈ dependent_of st x <-> x ∈ depends (task_of st t).
Proof.
  unfold dependent_of. rewrite list_elem_of_filter, list_elem_of_fmap. split; [by intros [? _]|].
  intros H. split; [done|]. unfold task_of in H.
  destruct (st !! t) as [T|] eqn:Ht; [|by apply elem_of_nil in H].
  exists (t, T). split; [done|]. by apply elem_of_map_to_list.
Qed.

(** An accepted [self.depends.append(d)] puts [self] in [d.dependent_of]
    and changes no other entry of a [dependent_of]. *)
Lemma depends_append_dependent_of fuel st self d st' :
  depends_append fuel st self (VTask d) = Some (st', Ok tt) ->
  forall x t, t ∈ dependent_of st' x <-> t ∈ dependent_of st x \/ (t = self /\ x = d).
Proof.
  unfold depends_append, _validate_depends.
  destruct (_check_circular_dependency fuel st d self Depends) as [[[]|e]|]; [|done..].
  intros [= <-] x t. rewrite !elem_of_dependent_of, task_of_update.
  case_decide as Ht; [subst t; simpl|].
  - rewrite elem_of_app, list_elem_of_singleton. intuition congruence.
  - intuition congruence.
Qed.

Global Instance depends_grow_refl self l : Reflexive (depends_grow self l).
Proof.
  intros st. split; [done|]. exists []. split; [by rewrite app_nil_r|].
  by intros d ?%elem_of_nil.
Qed.

Global Instance depends_grow_trans self l : Transitive (depends_grow self l).
Proof.
  intros st1 st2 st3 [H1 (ds1 & E1 & M1)] [H2 (ds2 & E2 & M2)]. split.
  - intros t Ht. by rewrite H2, H1.
  - exists (ds1 ++ ds2). split; [by rewrite E2, E1, app_assoc|].
    intros d [?|?]%elem_of_app; [by apply M1 | by apply M2].
Qed.

Lemma depends_grow_same self l st st' :
  (forall t, depends (task_of st' t) = depends (task_of st t)) -> depends_grow self l st st'.
Proof.
  intros H. split; [by intros t _|]. exists []. split; [by rewrite app_nil_r|].
  by intros d ?%elem_of_nil.
Qed.

Lemma depends_grow_update self l st t f :
  (forall T, depends (f T) = depends T) -> depends_grow self l st (update t f st).
Proof.
  intros Hf. apply depends_grow_same. intros x. rewrite task_of_update.
  case_decide; [subst; apply Hf | done].
Qed.

Lemma same_structure_depends st st' t :
  same_structure st' st -> depends (task_of st' t) = depends (task_of st t).
Proof.
  intros H. specialize (H t). unfold without_schedule in H.
  destruct (task_of st t), (task_of st' t). simpl in *. by injection H.
Qed.

Lemma stays_within_for_each_in {A} R (body : A -> M unit) l :
  Reflexive R -> Transitive R -> (forall x, x ∈ l -> stays_within R (body x)) ->
  stays_within R (for_each body l).
Proof.
  intros ? ?. induction l as [|x l IH]; intros Hb; simpl; [by apply stays_within_ret|].
  apply stays_within_bind; [done | apply Hb; by left | intros _].
  apply IH. intros y Hy. apply Hb. by right.
Qed.

Lemma depends_append_grow fuel self l v :
  v ∈ l -> stays_within (depends_grow self l) (fun st => depends_append fuel st self v).
Proof.
  intros Hv st st' r. unfold depends_append, _validate_depends.
  destruct v as [| | | | | | |d| | |]; try (by intros [= <- _]).
  destruct (_check_circular_dependency fuel st d self Depends) as [[[]|e]|]; [| |done].
  - intros [= <- _]. split; [intros t Ht; by rewrite task_of_update_ne|].
    exists [d]. rewrite task_of_update_eq. split; [done|].
    by intros ? ->%list_elem_of_singleton.
  - by intros [= <- _].
Qed.

(** A loop of appends that ends without an exception has appended every
    element of the list. *)
Lemma for_each_depends_ok fuel self l st st' :
  for_each (fun d st => depends_append fuel st self d) l st = Some (st', Ok tt) ->
  forall v, v ∈ l -> exists d, v = VTask d /\ d ∈ depends (task_of st' self).
Proof.
  revert st. induction l as [|v0 l IH]; intros st H v Hv; [by apply elem_of_nil in Hv|].
  simpl in H. apply bind_ok in H as (st1 & [] & H1 & H2).
  pose proof (stays_within_for_each_in (depends_grow self l) _ l _ _
                (fun x Hx => depends_append_grow fuel self l x Hx) _ _ _ H2)
    as [_ (ds & Hds & _)].
  apply elem_of_cons in Hv as [->|Hv]; [|by eapply IH].
  unfold depends_append, _validate_depends in H1.
  destruct v0 as [| | | | | | |d| | |]; try done.
  destruct (_check_circular_dependency fuel st d self Depends) as [[[]|e]|]; [|done..].
  injection H1 as <-. exists d. split; [done|].
  rewrite Hds, task_of_update_eq. simpl. rewrite !elem_of_app, list_elem_of_singleton.
  by left; right.
Qed.

Section ConstructionFrame.

Variable _validate_dates : value -> value -> value -> Z * Z * Z.

Lemma Task_init_attributes_others fuel TASK_PRIORITY self a :
  stays_within (others_keep_structure self)
    (Task_init_attributes _validate_dates fuel TASK_PRIORITY self a).
Proof.
  unfold Task_init_attributes.
  repeat (apply stays_within_bind; [apply _| |intros ?]).
  - apply stays_within_modify. intros st. unfold is_milestone_set.
    etrans; [|by apply others_keep_structure_update].
    destruct (bool_of _); [by apply others_keep_structure_update | done].
  - apply stays_within_modify. intros st. by apply others_keep_structure_update.
  - apply stays_within_for_each; [apply _..|]. intros d st st' r.
    unfold depends_append. destruct (_validate_depends _ _ _ _) as [[?|?]|]; [| |done].
    + intros [= <- _]. by apply others_keep_structure_update.
    + by intros [= <- _].
  - intros st st' r. apply stays_within_for_each; [apply _..|]. intros x.
    apply stays_within_total. intros st1. unfold resources_append.
    destruct (_validate_resources x); simpl; [by apply others_keep_structure_update | done].
  - apply stays_within_modify. intros st. by apply others_keep_structure_update.
  - apply stays_within_no_raise. intros st st' H. apply same_structure_others.
    by apply (proj1 (setters_same_structure _validate_dates fuel)) in H.
  - apply stays_within_total. intros st. unfold priority_set.
    destruct (_validate_priority _ _); simpl; [by apply others_keep_structure_update | done].
Qed.

(** What [__init__] does after the loop over [depends]. *)
Lemma after_depends_grow fuel TASK_PRIORITY self a l :
  stays_within (depends_grow self l)
    (bind (fun st =>
             let resources :=
               if is_milestone (task_of st self) then None else arg_resources a in
             for_each (fun r => total (fun st1 => resources_append st1 self r))
                      (default [] resources) st) (fun _ =>
     bind (modify (update self (set_effort None))) (fun _ =>
     bind (no_raise (fun st => _effort_setter _validate_dates fuel st self (arg_effort a)))
          (fun _ =>
     total (fun st => priority_set TASK_PRIORITY st self (arg_priority a)))))).
Proof.
  repeat (apply stays_within_bind; [apply _| |intros ?]).
  - intros st st' r. apply stays_within_for_each; [apply _..|]. intros x.
    apply stays_within_total. intros st1. unfold resources_append.
    destruct (_validate_resources x); simpl; [by apply depends_grow_update | done].
  - apply stays_within_modify. intros st. by apply depends_grow_update.
  - apply stays_within_no_raise. intros st st' H. apply depends_grow_same. intros t.
    apply same_structure_depends.
    by apply (proj1 (setters_same_structure _validate_dates fuel)) in H.
  - apply stays_within_total. intros st. unfold priority_set.
    destruct (_validate_priority _ _); simpl; [by apply depends_grow_update | done].
Qed.

Lemma Task_init_attributes_depends fuel TASK_PRIORITY self a :
  stays_within (depends_grow self (default [] (arg_depends a)))
    (Task_init_attributes _validate_dates fuel TASK_PRIORITY self a).
Proof.
  unfold Task_init_attributes.
  apply stays_within_bind; [apply _| |intros ?].
  { apply stays_within_modify. intros st. unfold is_milestone_set.
    etrans; [|by apply depends_grow_update].
    destruct (bool_of _); [by apply depends_grow_update | done]. }
  apply stays_within_bind; [apply _| |intros ?].
  { apply stays_within_modify. intros st. by apply depends_grow_update. }
  apply stays_within_bind; [apply _| |intros ?].
  { apply stays_within_for_each_in; [apply _..|]. intros v Hv.
    by apply depends_append_grow. }
  apply after_depends_grow.
Qed.

Lemma Task_init_attributes_depends_ok fuel TASK_PRIORITY self a st st' :
  Task_init_attributes _validate_dates fuel TASK_PRIORITY self a st = Some (st', Ok tt) ->
  forall v, v ∈ default [] (arg_depends a) ->
    exists d, v = VTask d /\ d ∈ depends (task_of st' self).
Proof.
  unfold Task_init_attributes. intros H v Hv.
  do 2 (apply bind_ok in H as (? & ? & _ & H)).
  apply bind_ok in H as (st3 & [] & Hloop & H).
  destruct (for_each_depends_ok _ _ _ _ _ Hloop v Hv) as (d & -> & Hd).
  exists d. split; [done|].
  apply after_depends_grow with (l := []) in H as [_ (ds & -> & _)].
  apply elem_of_app. by left.
Qed.

Lemma parent_set_depends fuel st self v st' r t :
  parent_set fuel st self v = Some (st', r) ->
  depends (task_of st' t) = depends (task_of st t).
Proof.
  assert (forall c s, depends (task_of (detach c s) t) = depends (task_of s t)) as Hd.
  { intros c s. unfold detach. destruct (parent (task_of s c)); [|done].
    rewrite task_of_update. by case_decide; subst. }
  unfold parent_set.
  destruct (_validate_parent fuel st self v) as [[[p|]|e]|]; [| | |done];
    intros [= <- _]; [|by rewrite task_of_update, <- (Hd self st); case_decide; subst|done].
  unfold _validate_children.
  rewrite !task_of_update. repeat case_decide; subst; simpl;
    rewrite ?task_of_update_eq, ?task_of_update_ne by done; simpl;
    rewrite ?task_of_update_eq, ?task_of_update_ne by done; simpl; by rewrite ?Hd.
Qed.

(** X20: whatever its outcome, constructing a task changes no column but
    schedule ones of any task that is neither the new task nor the task
    passed as its parent, and among the [dependent_of] backrefs it changes
    the entries for the new task only: the new task is in the
    [dependent_of] of no task but those passed in [depends], and of each
    of them when the construction succeeds. *)
Theorem construction_touches_only_the_parent (fuel : nat) (TASK_PRIORITY : Z)
    (st : store) (self : nat) (a : task_args) (st' : store) (w : list warning)
    (r : result unit) :
  Task_init _validate_dates fuel TASK_PRIORITY st self a = Some (st', w, r) ->
  (forall x, x ≠ self -> arg_parent a ≠ VTask x ->
     without_schedule (task_of st' x) = without_schedule (task_of st x)) /\
  (forall x t, t ≠ self -> t ∈ dependent_of st' x <-> t ∈ dependent_of st x) /\
  (forall x, self ∈ dependent_of st' x -> VTask x ∈ default [] (arg_depends a)) /\
  (r = Ok tt ->
   forall x, VTask x ∈ default [] (arg_depends a) -> self ∈ dependent_of st' x).
Proof.
  unfold Task_init. intros H.
  destruct (new_object _validate_dates st self (arg_start a) (arg_end a) (arg_duration a))
    as [Hp0 Hframe].
  assert (depends (task_of (validate_dates_on _validate_dates (<[self:=blank_task]> st)
                              self (arg_start a) (arg_end a) (arg_duration a)) self) = [])
    as Hd0.
  { unfold validate_dates_on. destruct (_validate_dates _ _ _) as [[s e] d].
    by rewrite task_of_update_eq, task_of_insert_eq. }
  set (st0 := validate_dates_on _validate_dates (<[self:=blank_task]> st) self
                (arg_start a) (arg_end a) (arg_duration a)) in *.
  assert (forall x st1 r1, x ≠ self -> arg_parent a ≠ VTask x ->
            parent_set fuel st0 self (arg_parent a) = Some (st1, r1) ->
            task_of st1 x = task_of st x) as Hpar.
  { intros x st1 r1 Hx Hpx. unfold parent_set, detach. rewrite Hp0.
    destruct (_validate_parent fuel st0 self (arg_parent a)) as [[[p|]|e]|] eqn:Hv;
      [| | |done].
    - assert (arg_parent a = VTask p) as Hp.
      { unfold _validate_parent in Hv. destruct (arg_parent a); try done.
        destruct (_check_circular_dependency _ _ _ _ _) as [[[]|?]|]; try done.
        by injection Hv as <-. }
      assert (p ≠ x) by (intros ->; by apply Hpx).
      intros [= <- _]. unfold _validate_children.
      by rewrite !task_of_update_ne, Hframe by done.
    - intros [= <- _]. by rewrite task_of_update_ne, Hframe by done.
    - intros [= <- _]. by apply Hframe. }
  assert (exists st1 r1,
            parent_set fuel st0 self (arg_parent a) = Some (st1, r1) /\
            (st' = st1 \/
             exists p r2, Task_init_attributes _validate_dates fuel TASK_PRIORITY self a
                            (update self (set_project p) st1) = Some (st', r2) /\ r = r2) /\
            (r = Ok tt ->
             exists p, Task_init_attributes _validate_dates fuel TASK_PRIORITY self a
                         (update self (set_project p) st1) = Some (st', Ok tt)))
    as (st1 & r1 & Hps & Hrest & Hok).
  { destruct (parent_set fuel st0 self (arg_parent a)) as [[st1 [[]|e]]|]; [| |done].
    - exists st1, (Ok tt). split; [done|].
      destruct (_validates_project st1 self (arg_project a)) as [[p|e] w'].
      + destruct (Task_init_attributes _ _ _ _ _ _) as [[st2 r2]|] eqn:Hattr; [|done].
        injection H as <- _ <-. split; [right; by exists p, r2|].
        intros ->. by exists p.
      + injection H as <- _ <-. split; [by left|done].
    - exists st1, (Raise e). split; [done|]. injection H as <- _ <-. split; [by left|done]. }
  assert (depends_grow self (default [] (arg_depends a)) st0 st') as [Hothers (ds & Hds & Hin)].
  { etrans; [apply depends_grow_same; intros t; by eapply parent_set_depends|].
    destruct Hrest as [->|(p & r2 & Hattr & _)]; [done|].
    etrans; [|by eapply Task_init_attributes_depends].
    by apply depends_grow_update. }
  rewrite Hd0 in Hds. simpl in Hds.
  split; [|split; [|split]].
  - intros x Hx Hpx. specialize (Hpar x _ _ Hx Hpx Hps).
    destruct Hrest as [->|(p & r2 & Hattr & _)]; [by rewrite Hpar|].
    apply Task_init_attributes_others in Hattr.
    rewrite (Hattr x Hx), task_of_update_ne by done. by rewrite Hpar.
  - intros x t Ht. by rewrite !elem_of_dependent_of, Hothers, Hframe.
  - intros x. rewrite elem_of_dependent_of, Hds. apply Hin.
  - intros Hr x Hx. destruct (Hok Hr) as (p & Hattr).
    destruct (Task_init_attributes_depends_ok _ _ _ _ _ _ Hattr _ Hx) as (d & [= <-] & Hd).
    by apply elem_of_dependent_of.
Qed.

End ConstructionFrame.

Section ProjectWarning.

Variable _validate_dates : value -> value -> value -> Z * Z * Z.

(** X14: constructing a task under a parent that has a project warns
    exactly when a project is passed that is not the parent's: the
    construction, whatever its outcome, issues one [RuntimeWarning] in
    that case and none otherwise. *)
Theorem construction_warns_on_another_project (fuel : nat) (TASK_PRIORITY : Z)
    (st : store) (self p pq : nat) (a : task_args) (st' : store) (w : list warning)
    (r : result unit) :
  arg_parent a = VTask p -> p ≠ self ->
  _project (task_of st p) = Some pq ->
  Task_init _validate_dates fuel TASK_PRIORITY st self a = Some (st', w, r) ->
  w = match arg_project a with
      | VProject q => if decide (q = pq) then [] else [RuntimeWarning self (Some pq)]
      | _ => []
      end.
Proof.
  intros Hpar Hne Hpq. unfold Task_init. rewrite Hpar.
  destruct (new_object _validate_dates st self (arg_start a) (arg_end a) (arg_duration a))
    as [Hp0 Hframe].
  set (st0 := validate_dates_on _validate_dates (<[self:=blank_task]> st) self
                (arg_start a) (arg_end a) (arg_duration a)) in *.
  assert (children (task_of st0 self) = []) as Hc0.
  { unfold st0, validate_dates_on.
    destruct (_validate_dates _ _ _) as [[s e] d].
    by rewrite task_of_update_eq, task_of_insert_eq. }
  unfold parent_set, _validate_parent. destruct fuel as [|fuel]; [done|].
  cbn [_check_circular_dependency]. unfold getattr. rewrite Hc0. cbn [check_loop].
  unfold detach. rewrite Hp0. unfold _validate_children.
  set (st1 := update p _ (update p _ (update self _ st0))).
  assert (parent (task_of st1 self) = Some p) as Hpp.
  { unfold st1. by rewrite !task_of_update_ne, task_of_update_eq by done. }
  assert (_project (task_of st1 p) = Some pq) as Hpq1.
  { unfold st1. rewrite !task_of_update_eq. simpl.
    by rewrite task_of_update_ne, Hframe by done. }
  assert ((_validates_project st1 self (arg_project a)).2
          = match arg_project a with
            | VProject q => if decide (q = pq) then [] else [RuntimeWarning self (Some pq)]
            | _ => []
            end) as Hw.
  { unfold _validates_project. rewrite Hpp, Hpq1.
    destruct (arg_project a) as [| | | | | | | | |q|]; simpl; try done.
    - by rewrite decide_True.
    - destruct (decide (q = pq)) as [->|Hq].
      + by rewrite decide_True.
      + rewrite decide_False; [done|]. by intros [= ->]. }
  rewrite <- Hw.
  destruct (_validates_project st1 self (arg_project a)) as [[q|e] w'].
  - destruct (Task_init_attributes _ _ _ _ _ _) as [[st2 r2]|]; [|done].
    by intros [= _ <- _].
  - by intros [= _ <- _].
Qed.

End ProjectWarning.

Lemma construction_warns_in_a_project :
  exists st' w r,
    arg_parent other_project_args = VTask 1 /\ 1%nat ≠ 2%nat /\
    _project (task_of in_project 1) = Some 10%nat /\
    Task_init reconcile 5 500 in_project 2 other_project_args = Some (st', w, r) /\
    w = [RuntimeWarning 2 (Some 10%nat)].
Proof.
  let v := eval vm_compute in (Task_init reconcile 5 500 in_project 2 other_project_args) in
  match v with Some (?s, ?w, ?r) => exists s, w, r end.
  match goal with
  | |- _ /\ _ /\ _ /\ ?run = ?res /\ _ => assert (run = res) as H by (vm_compute; reflexivity)
  end.
  split; [done|]. split; [done|]. split; [done|]. split; [exact H|].
  exact (construction_warns_on_another_project reconcile 5 500 in_project 2 1 10
           other_project_args _ _ _ eq_refl ltac:(done) eq_refl H).
Defined.

Lemma construction_in_the_family :
  exists st' w r,
    Task_init reconcile 5 500 family 4
      (mkArgs (VProject 20) (VTask 1) (Some [VTask 3]) VNone VNone VNone VNone None
              (VBool false) (VInt 500)) = Some (st', w, r) /\
    (forall x, x ≠ 4%nat -> VTask 1 ≠ VTask x ->
       without_schedule (task_of st' x) = without_schedule (task_of family x)) /\
    (forall x t, t ≠ 4%nat -> t ∈ dependent_of st' x <-> t ∈ dependent_of family x) /\
    (forall x, 4%nat ∈ dependent_of st' x -> VTask x ∈ [VTask 3]) /\
    (r = Ok tt -> forall x, VTask x ∈ [VTask 3] -> 4%nat ∈ dependent_of st' x).
Proof.
  pose (args := mkArgs (VProject 20) (VTask 1) (Some [VTask 3]) VNone VNone VNone VNone None
                  (VBool false) (VInt 500)).
  let v := eval vm_compute in (Task_init reconcile 5 500 family 4 args) in
  match v with Some (?s, ?w, ?r) => exists s, w, r end.
  match goal with
  | |- ?run = ?res /\ _ => assert (run = res) as H by (vm_compute; reflexivity)
  end.
  split; [exact H|].
  exact (construction_touches_only_the_parent reconcile 5 500 family 4 args _ _ _ H).
Defined.

(** A task constructed with [depends=[<task 3>]] is in the [dependent_of]
    of task 3 and of no other task. *)
Example dependency_gains_the_new_task :
  exists st' w,
    Task_init reconcile 5 500 family 4
      (mkArgs (VProject 20) (VTask 1) (Some [VTask 3]) VNone VNone VNone VNone None
              (VBool false) (VInt 500)) = Some (st', w, Ok tt) /\
    dependent_of family 3 = [] /\ dependent_of st' 3 = [4%nat] /\
    dependent_of st' 1 = [] /\ dependent_of st' 2 = [].
Proof.
  let v := eval vm_compute in
    (Task_init reconcile 5 500 family 4
       (mkArgs (VProject 20) (VTask 1) (Some [VTask 3]) VNone VNone VNone VNone None
               (VBool false) (VInt 500))) in
  match v with Some (?s, ?w, _) => exists s, w end.
  repeat split; vm_compute; reflexivity.
Qed.

(** ** Effort and duration, whatever the primitive *)

Lemma start_getter_keeps_effort fuel st t st' v x :
  _start_getter fuel st t = Some (st', v) ->
  without_schedule (task_of st' x) = without_schedule (task_of st x) /\
  _effort (task_of st' x) = _effort (task_of st x) /\
  _duration (task_of st' x) = _duration (task_of st x).
Proof.
  intros H%start_getter_same_inputs. specialize (H x).
  split; [by apply erase_without_schedule|].
  pose proof (f_equal _effort H) as He. pose proof (f_equal _duration H) as Hd.
  unfold erase in He, Hd.
  by destruct (children (task_of st' x)), (children (task_of st x)).
Qed.

Lemma end_getter_keeps_effort fuel st t st' v x :
  _end_getter fuel st t = Some (st', v) ->
  without_schedule (task_of st' x) = without_schedule (task_of st x) /\
  _effort (task_of st' x) = _effort (task_of st x) /\
  _duration (task_of st' x) = _duration (task_of st x).
Proof.
  intros H%end_getter_same_inputs. specialize (H x).
  split; [by apply erase_without_schedule|].
  pose proof (f_equal _effort H) as He. pose proof (f_equal _duration H) as Hd.
  unfold erase in He, Hd.
  by destruct (children (task_of st' x)), (children (task_of st x)).
Qed.

Section AnyPrimitive.

Variable _validate_dates : value -> value -> value -> Z * Z * Z.

Lemma setters_end_consistent fuel :
  (forall st self v st',
     _effort_setter _validate_dates fuel st self v = Some st' ->
     effort_consistent st' self) /\
  (forall st self v st',
     _duration_setter _validate_dates fuel st self v = Some st' ->
     effort_consistent st' self).
Proof.
  induction fuel as [|fuel [IHe IHd]]; [done|]. split.
  - intros st self v st' H. rewrite effort_setter_step in H. by apply IHd in H.
  - intros st self v st' H. cbn [_duration_setter] in H.
    destruct (_start_getter fuel st self) as [[st1 s]|]; [|done].
    destruct (match v with
              | VTimedelta _ =>
                  Some (validate_dates_on _validate_dates st1 self (VDatetime s) VNone v)
              | _ =>
                  match _end_getter fuel st1 self with
                  | Some (st2, e) =>
                      Some (validate_dates_on _validate_dates st2 self
                              (VDatetime s) (VDatetime e) v)
                  | None => None
                  end
              end) as [st3|]; [|done].
    case_decide as He; [|by apply IHe in H]. injection H as <-.
    unfold effort_consistent. by rewrite <- num_of_resources_max.
Qed.

(** X22: whatever the reconciliation primitive does and whether the task
    has children or not, a write to [effort] or to [duration] that comes
    back leaves [effort == duration * max(1, |resources|)]. *)
Theorem returned_write_is_consistent (fuel : nat) (st : store) (self : nat) (v : value)
    (st' : store) :
  _effort_setter _validate_dates fuel st self v = Some st' \/
  _duration_setter _validate_dates fuel st self v = Some st' ->
  effort_consistent st' self.
Proof.
  intros [H|H].
  - by apply (proj1 (setters_end_consistent fuel)) in H.
  - by apply (proj2 (setters_end_consistent fuel)) in H.
Qed.

Lemma date_setters_keep_effort fuel st self v st' :
  _start_setter _validate_dates fuel st self v = Some st' \/
  _end_setter _validate_dates fuel st self v = Some st' ->
  forall x, _effort (task_of st' x) = _effort (task_of st x) /\
            resources (task_of st' x) = resources (task_of st x).
Proof.
  assert (forall st1 a b c x,
            _effort (task_of (validate_dates_on _validate_dates st1 self a b c) x)
              = _effort (task_of st1 x) /\
            resources (task_of (validate_dates_on _validate_dates st1 self a b c) x)
              = resources (task_of st1 x)) as Hv.
  { intros st1 a b c x. unfold validate_dates_on.
    destruct (_validate_dates a b c) as [[s e] d].
    rewrite task_of_update. by case_decide; subst. }
  intros [H|H] x.
  - unfold _start_setter in H. destruct (is_leaf st self); [|by injection H as <-].
    destruct (_end_getter fuel st self) as [[st1 e]|] eqn:He; [|done].
    injection H as <-. destruct (Hv st1 (v) (VDatetime e)
                                   (VTimedelta (_duration_getter st1 self)) x) as [-> ->].
    destruct (end_getter_keeps_effort _ _ _ _ _ x He) as (Hw & Hf & _).
    split; [done|]. exact (f_equal resources Hw).
  - unfold _end_setter in H. destruct (is_leaf st self); [|by injection H as <-].
    destruct (_start_getter fuel st self) as [[st1 s]|] eqn:Hs; [|done].
    injection H as <-. destruct (Hv st1 (VDatetime s) v
                                   (VTimedelta (_duration_getter st1 self)) x) as [-> ->].
    destruct (start_getter_keeps_effort _ _ _ _ _ x Hs) as (Hw & Hf & _).
    split; [done|]. exact (f_equal resources Hw).
Qed.

(** X21: a write to [start] or to [end] that comes back has changed no
    task's effort: none is recomputed.  On a task that met
    [effort == duration * max(1, |resources|)] the equation therefore
    holds afterwards exactly when the duration times the resource count
    is what it was. *)
Theorem date_writes_leave_the_effort (fuel : nat) (st : store) (self : nat) (v : value)
    (st' : store) :
  _start_setter _validate_dates fuel st self v = Some st' \/
  _end_setter _validate_dates fuel st self v = Some st' ->
  (forall x, _effort (task_of st' x) = _effort (task_of st x)) /\
  (effort_consistent st self ->
   effort_consistent st' self <->
   _duration (task_of st' self) * Z.max 1 (Z.of_nat (length (resources (task_of st self))))
   = _duration (task_of st self) * Z.max 1 (Z.of_nat (length (resources (task_of st self))))).
Proof.
  intros H. pose proof (date_setters_keep_effort _ _ _ _ _ H) as Hk.
  split; [intros x; apply Hk|].
  unfold effort_consistent. destruct (Hk self) as [-> ->]. intros ->.
  split; [by intros [= ->] | by intros ->].
Qed.

End AnyPrimitive.

(** On a leaf with one resource, ten units of effort and ten of duration,
    [start = 4] leaves the effort at ten and the duration at six. *)
Example start_write_breaks_the_equation :
  effort_consistent one_resource 1 /\
  exists st',
    _start_setter reconcile 1 one_resource 1 (VDatetime 4) = Some st' /\
    _effort (task_of st' 1) = Some 10 /\ _duration (task_of st' 1) = 6 /\
    ~ effort_consistent st' 1.
Proof.
  split; [done|].
  exists_computed (_start_setter reconcile 1 one_resource 1 (VDatetime 4)).
  split; [vm_compute; reflexivity|]. split; [vm_compute; reflexivity|].
  split; [vm_compute; reflexivity|]. unfold effort_consistent. vm_compute. discriminate.
Qed.

Lemma date_write_on_a_leaf :
  exists st',
    (_start_setter reconcile 1 one_resource 1 (VDatetime 4) = Some st' \/
     _end_setter reconcile 1 one_resource 1 (VDatetime 4) = Some st') /\
    (forall x, _effort (task_of st' x) = _effort (task_of one_resource x)).
Proof.
  pose (st' := update 1%nat (set_dates 4 10 6) one_resource).
  assert (_start_setter reconcile 1 one_resource 1 (VDatetime 4) = Some st') as H
    by (vm_compute; reflexivity).
  exists st'. split; [by left|].
  exact (proj1 (date_writes_leave_the_effort reconcile 1 one_resource 1 (VDatetime 4)
                  st' (or_introl H))).
Defined.

Lemma returned_write_on_a_leaf :
  exists st',
    _effort_setter reconcile 5 one_resource 1 (VTimedelta 30) = Some st' /\
    effort_consistent st' 1.
Proof.
  pose (st' := update 1%nat (set_effort (Some 30)) (update 1%nat (set_dates 0 30 30) one_resource)).
  assert (_effort_setter reconcile 5 one_resource 1 (VTimedelta 30) = Some st') as H
    by (vm_compute; reflexivity).
  exists st'. split; [done|].
  exact (returned_write_is_consistent reconcile 5 one_resource 1 (VTimedelta 30)
           st' (or_introl H)).
Defined.

(** ** What a constructed task meets *)

Lemma validate_priority_range TASK_PRIORITY v p :
  _validate_priority TASK_PRIORITY v = Ok p -> 0 <= p <= 1000.
Proof.
  unfold _validate_priority.
  destruct (match int_ v with
            | Ok z => Ok (VInt z)
            | Raise ValueError | Raise TypeError => Ok v
            | Raise e => Raise e
            end) as [c|e]; [|done].
  intros [= <-]. rewrite clamp_priority_eq. unfold clamp_priority. lia.
Qed.

Section Constructed.

Variable _validate_dates : value -> value -> value -> Z * Z * Z.

(** X23: whatever the reconciliation primitive does, a task whose
    construction comes back without an exception has a priority from 0 to
    1000 and meets [effort == duration * max(1, |resources|)]. *)
Theorem constructed_task_is_consistent (fuel : nat) (TASK_PRIORITY : Z) (st : store)
    (self : nat) (a : task_args) (st' : store) (w : list warning) :
  Task_init _validate_dates fuel TASK_PRIORITY st self a = Some (st', w, Ok tt) ->
  effort_consistent st' self /\ 0 <= priority (task_of st' self) <= 1000.
Proof.
  unfold Task_init. intros H.
  destruct (parent_set fuel _ self (arg_parent a)) as [[st1 [[]|e]]|]; [|done..].
  destruct (_validates_project st1 self (arg_project a)) as [[p|e] w1]; [|done].
  destruct (Task_init_attributes _ fuel TASK_PRIORITY self a _) as [[st2 r]|] eqn:Ha;
    [|done].
  injection H as -> -> ->. unfold Task_init_attributes in Ha.
  do 5 (apply bind_ok in Ha as (? & ? & _ & Ha)).
  apply bind_ok in Ha as (st6 & ? & He & Ha).
  unfold no_raise in He.
  destruct (_effort_setter _ fuel _ self (arg_effort a)) as [st6'|] eqn:Hs; [|done].
  injection He as -> _.
  apply (proj1 (setters_end_consistent _ fuel)) in Hs.
  unfold total, priority_set in Ha.
  destruct (_validate_priority TASK_PRIORITY (arg_priority a)) as [q|e] eqn:Hq; [|done].
  injection Ha as <-. apply validate_priority_range in Hq.
  unfold effort_consistent in *. by rewrite task_of_update_eq.
Qed.

End Constructed.

Lemma constructed_task_in_a_project :
  exists st' w,
    Task_init reconcile 5 500 in_project 2 other_project_args = Some (st', w, Ok tt) /\
    effort_consistent st' 2 /\ 0 <= priority (task_of st' 2) <= 1000.
Proof.
  let v := eval vm_compute in (Task_init reconcile 5 500 in_project 2 other_project_args) in
  match v with
  | Some (?s, ?w, _) =>
      assert (Task_init reconcile 5 500 in_project 2 other_project_args = Some (s, w, Ok tt))
        as H by (vm_compute; reflexivity);
      exists s, w; split; [exact H|];
      exact (constructed_task_is_consistent reconcile 5 500 in_project 2
               other_project_args s w H)
  end.
Defined.
